(** * KHQR payment bot: transaction tracking, polling and manual confirmation

    A shallow embedding of [Bakong@Wing.py].  The bot keeps a dictionary of
    pending transactions ([active_transactions]) guarded by a lock
    ([transaction_lock]); a background thread polls the payment status of
    every pending transaction and expires old ones, and a button handler
    lets the user force a check.

    The Python functions are embedded as programs over an explicit set of
    [action]s (calls to the Bakong client, calls to the Telegram bot, lock
    and dictionary operations, the clock).  A program is run against a
    [World] (dictionary, lock, trace of everything done so far) and an
    environment [Env] that answers the external calls; threads are run by
    interleaving their actions.

    Conventions of the model:
    - timestamps ([time.time()]) are integers ([Z]); rounding of floating
      point arithmetic is not modelled;
    - a Python [str] is a [string]; only length, concatenation, slicing and
      equality are used on them;
    - the texts of the messages are constructors of [text] that keep the
      values interpolated into them;
    - [print] and [time.sleep] never raise. *)

From Stdlib Require Import ZArith List String Ascii Bool Lia DecimalString.
Import ListNotations.

Local Open Scope Z_scope.
Local Open Scope string_scope.
Local Open Scope list_scope.

(** ** 1. Configuration and constants (source lines 30-38) *)

Definition CURRENCY : string := "KHR".
Definition EXPIRATION_SECONDS : Z := (5 * 60)%Z.
Definition CHECK_INTERVAL_SECONDS : Z := 30%Z.
Definition CONFIRM_CALLBACK_PREFIX : string := "confirm_".

(** ** 2. Python values used by the bot *)

(** Exceptions.  [ApiException] stands for whatever the Telegram or Bakong
    client libraries raise (network failure, HTTP error, parse error). *)
Inductive exn : Type :=
| ValueError
| KeyError
| TypeError
| AttributeError
| RuntimeError
| ApiException (code : Z).

(** [s[n:]] for a non-negative [n]. *)
Fixpoint str_from (n : nat) (s : string) : string :=
  match n, s with
  | O, _ => s
  | S _, EmptyString => EmptyString
  | S n', String _ s' => str_from n' s'
  end.

(** [s[:n]] for a non-negative [n]. *)
Fixpoint str_upto (n : nat) (s : string) : string :=
  match n, s with
  | O, _ => EmptyString
  | S _, EmptyString => EmptyString
  | S n', String c s' => String c (str_upto n' s')
  end.

(** [s.startswith(p)]. *)
Definition startswith (p s : string) : bool := String.prefix p s.

(** [str(z)] / [f"{z}"] for an integer. *)
Definition str_of_int (z : Z) : string := NilZero.string_of_int (Z.to_int z).

(** Truth value of an integer in [if message_id:]. *)
Definition truthy (z : Z) : bool := negb (z =? 0)%Z.

(** The value stored per bill number (source line 41):
    [{'md5_hash': str, 'expiry_time': float, 'chat_id': int, 'message_id': int}]. *)
Record Transaction : Type := mkTransaction {
  md5_hash : string;
  expiry_time : Z;
  chat_id : Z;
  message_id : Z
}.

(** *** Dictionaries

    A Python [dict] keeps its keys in insertion order and iterating over
    [items()] follows that order, so the dictionary is an association list
    with at most one entry per key. *)

Definition dict : Type := list (string * Transaction).

Fixpoint dict_get (k : string) (d : dict) : option Transaction :=
  match d with
  | [] => None
  | (k', v) :: d' => if String.eqb k' k then Some v else dict_get k d'
  end.

(** [k in d] *)
Definition dict_contains (k : string) (d : dict) : bool :=
  match dict_get k d with Some _ => true | None => false end.

(** [d[k] = v]: an existing key keeps its position, a new key goes last. *)
Fixpoint dict_set (k : string) (v : Transaction) (d : dict) : dict :=
  match d with
  | [] => [(k, v)]
  | (k', v') :: d' =>
      if String.eqb k' k then (k', v) :: d' else (k', v') :: dict_set k v d'
  end.

(** [del d[k]] for a key that is present. *)
Fixpoint dict_del (k : string) (d : dict) : dict :=
  match d with
  | [] => []
  | (k', v') :: d' =>
      if String.eqb k' k then d' else (k', v') :: dict_del k d'
  end.

Definition dict_keys (d : dict) : list string := map fst d.

(** ** 3. Messages, log lines and Telegram objects *)

(** The result of [float(parts[1])]; the bot only formats it and hands it to
    the QR generator, so it is kept as the text it was parsed from. *)
Record pyfloat : Type := Float { float_source : string }.

(** Texts sent to the user, one constructor per f-string of the source. *)
Inductive text : Type :=
| PaymentCompleted (bill_number payment_status : string)   (* lines 79-82 *)
| CheckError                                               (* line 101 *)
| Expired (bill_number : string)                           (* line 139 *)
| Welcome                                                  (* lines 168-174 *)
| ServiceNotInitialized                                    (* line 181 *)
| AmountMissing                                            (* line 188 *)
| Generating (amount : pyfloat) (bill_number : string)     (* line 200 *)
| ImageError                                               (* lines 226-229 *)
| QrCaption (amount : pyfloat) (description bill_number : string)
            (expiry_time : Z)                              (* lines 245-252 *)
| BadAmountFormat                                          (* line 272 *)
| PayFailed (e : exn)                                      (* line 275 *)
| CheckingStatus                                           (* line 284 *)
| NotTracked (bill_number : string)                        (* line 306 *)
| StillUnpaid (bill_number : string).                      (* line 339 *)

(** New captions computed from the caption of the message under the button. *)
Inductive caption : Type :=
| NoLongerCheckable (old : string)     (* line 297: old + warning *)
| ShowUnpaid (old : string).           (* lines 324-326: old cut at the status line + UNPAID lines *)

(** Inline keyboards. *)
Inductive markup : Type :=
| NoMarkup
| ConfirmKeyboard (callback_data : string).

(** Lines written with [print]. *)
Inductive logline : Type :=
| LogDeletedQr (message_id : Z) (bill_number : string)     (* line 73 *)
| LogDeleteFailed (message_id : Z) (e : exn)               (* line 75 *)
| LogRemovedAfterSuccess (bill_number : string)            (* line 90 *)
| LogCheckFailed (bill_number : string) (e : exn)          (* line 98 *)
| LogExpiredDeleteFailed (message_id : Z) (e : exn)        (* line 136 *)
| LogRemoved (key : string)                                (* line 158 *)
| LogImageFailed (e : exn)                                 (* line 231 *)
| LogPayFailed (e : exn)                                   (* line 274 *)
| LogEditFailed (e : exn)                                  (* line 303 *)
| LogCaptionFailed (e : exn).                              (* line 337 *)

(** The incoming [/pay] message.  [text_parts] is
    [message.text.split(maxsplit=2)]. *)
Record Message : Type := mkMessage {
  msg_chat_id : Z;
  text_parts : list string
}.

(** The callback query of a button press, with the message the button is
    attached to. *)
Record CallbackQuery : Type := mkCallbackQuery {
  call_id : string;
  call_data : string;
  call_chat_id : Z;                  (* call.message.chat.id *)
  call_message_id : Z;               (* call.message.message_id *)
  call_caption : option string;      (* call.message.caption *)
  call_reply_markup : markup         (* call.message.reply_markup *)
}.

(** ** 4. Actions, events and programs *)

Inductive action : Type :=
(* khqr_client *)
| check_payment (md5 : string)
| create_qr (amount : pyfloat) (bill_number store_label : string)
| generate_md5 (qr_string : string)
| qr_image (qr_string : string)
(* bot *)
| answer_callback_query (id : string) (t : text)
| delete_message (chat message : Z)
| send_message (chat : Z) (t : text)
| reply_to (m : Message) (t : text)
| edit_message_caption (chat message : Z) (c : caption) (k : markup)
| send_photo (chat : Z) (photo : string) (c : text) (k : markup)
(* builtins *)
| float_of (s : string)
| time_time
| time_sleep (seconds : Z)
| print (l : logline)
(* transaction_lock *)
| lock_acquire
| lock_release
(* active_transactions *)
| tx_contains (k : string)
| tx_get (k : string)
| tx_set (k : string) (v : Transaction)
| tx_del (k : string)
| tx_items.

(** What each action returns when it does not raise. *)
Definition result (a : action) : Type :=
  match a with
  | check_payment _ => string
  | create_qr _ _ _ => string
  | generate_md5 _ => string
  | qr_image _ => string
  | send_photo _ _ _ _ => Z          (* sent_message.message_id *)
  | float_of _ => pyfloat
  | time_time => Z
  | tx_contains _ => bool
  | tx_get _ => option Transaction
  | tx_items => dict
  | _ => unit
  end.

Inductive reply (X : Type) : Type :=
| Ok (x : X)
| Err (e : exn).
Arguments Ok {X} x.
Arguments Err {X} e.

(** One entry of the trace: an action with the answer it got. *)
Record event : Type := Ev {
  ev_action : action;
  ev_reply : reply (result ev_action)
}.

Inductive prog (A : Type) : Type :=
| Ret (a : A)
| Raise (e : exn)
| Act (a : action) (k : reply (result a) -> prog A).
Arguments Ret {A} a.
Arguments Raise {A} e.
Arguments Act {A} a k.

(** Perform one action; an exception it raises propagates. *)
Definition call (a : action) : prog (result a) :=
  Act a (fun r => match r with Ok x => Ret x | Err e => Raise e end).

Fixpoint bind {A B : Type} (p : prog A) (f : A -> prog B) : prog B :=
  match p with
  | Ret a => f a
  | Raise e => Raise e
  | Act a k => Act a (fun r => bind (k r) f)
  end.

(** [try: p  except Exception as e: h e] *)
Fixpoint try_catch {A : Type} (p : prog A) (h : exn -> prog A) : prog A :=
  match p with
  | Ret a => Ret a
  | Raise e => h e
  | Act a k => Act a (fun r => try_catch (k r) h)
  end.

(** Run [q] when [p] is left, normally or by an exception. *)
Fixpoint finally {A : Type} (p : prog A) (q : prog unit) : prog A :=
  match p with
  | Ret a => bind q (fun _ => Ret a)
  | Raise e => bind q (fun _ => Raise e)
  | Act a k => Act a (fun r => finally (k r) q)
  end.

Declare Scope prog_scope.
Delimit Scope prog_scope with prog.
Notation "x <- p ;; q" := (bind p (fun x => q))
  (at level 61, p at next level, right associativity) : prog_scope.
Notation "p ;; q" := (bind p (fun _ => q))
  (at level 61, right associativity) : prog_scope.
Local Open Scope prog_scope.

(** [with transaction_lock: body] *)
Definition with_lock {A : Type} (body : prog A) : prog A :=
  call lock_acquire ;; finally body (call lock_release).

(** ** 5. Worlds, environments and execution *)

Record World : Type := mkWorld {
  active_transactions : dict;
  transaction_lock : bool;              (* true while some thread holds it *)
  trace : list event                    (* oldest first *)
}.

(** The environment answers the external calls, knowing all that happened
    before; [clock] is [time.time()]. *)
Record Env : Type := mkEnv {
  clock : list event -> Z;
  external : list event -> forall a : action, reply (result a)
}.

(** The answer to an action and its effect on the dictionary and the lock.
    [None]: the action cannot proceed now (the lock is taken). *)
Definition answer (env : Env) (w : World) (a : action)
  : option (reply (result a) * dict * bool) :=
  let d := active_transactions w in
  let l := transaction_lock w in
  match a as a0 return option (reply (result a0) * dict * bool) with
  | lock_acquire => if l then None else Some (Ok tt, d, true)
  | lock_release => if l then Some (Ok tt, d, false) else Some (Err RuntimeError, d, l)
  | tx_contains k => Some (Ok (dict_contains k d), d, l)
  | tx_get k => Some (Ok (dict_get k d), d, l)
  | tx_set k v => Some (Ok tt, dict_set k v d, l)
  | tx_del k =>
      if dict_contains k d then Some (Ok tt, dict_del k d, l)
      else Some (Err KeyError, d, l)
  | tx_items => Some (Ok d, d, l)
  | time_time => Some (Ok (clock env (trace w)), d, l)
  | time_sleep _ => Some (Ok tt, d, l)
  | print _ => Some (Ok tt, d, l)
  | a' => Some (external env (trace w) a', d, l)
  end.

Definition perform (env : Env) (w : World) (a : action)
  : option (reply (result a) * World) :=
  match answer env w a with
  | None => None
  | Some (r, d, l) => Some (r, mkWorld d l (trace w ++ [Ev a r]))
  end.

Inductive outcome (A : Type) : Type :=
| Returned (a : A)
| Raised (e : exn)
| Blocked.
Arguments Returned {A} a.
Arguments Raised {A} e.
Arguments Blocked {A}.

(** Run one program alone, to its end. *)
Fixpoint run {A : Type} (env : Env) (p : prog A) (w : World) : outcome A * World :=
  match p with
  | Ret a => (Returned a, w)
  | Raise e => (Raised e, w)
  | Act a k =>
      match perform env w a with
      | None => (Blocked, w)
      | Some (r, w') => run env (k r) w'
      end
  end.

(** Threads: thread [i] of the pool makes its next action. *)
Fixpoint set_nth {X : Type} (i : nat) (x : X) (l : list X) : list X :=
  match i, l with
  | _, [] => []
  | O, _ :: l' => x :: l'
  | S i', y :: l' => y :: set_nth i' x l'
  end.

Definition thread_step {A : Type} (env : Env) (i : nat)
  (cfg : World * list (prog A)) : option (World * list (prog A)) :=
  let '(w, pool) := cfg in
  match nth_error pool i with
  | Some (Act a k) =>
      match perform env w a with
      | Some (r, w') => Some (w', set_nth i (k r) pool)
      | None => None
      end
  | _ => None
  end.

(** Follow a schedule; an entry naming a thread that cannot move is skipped. *)
Fixpoint interleave {A : Type} (env : Env) (schedule : list nat)
  (cfg : World * list (prog A)) : World * list (prog A) :=
  match schedule with
  | [] => cfg
  | i :: rest =>
      match thread_step env i cfg with
      | Some cfg' => interleave env rest cfg'
      | None => interleave env rest cfg
      end
  end.

Definition finished {A : Type} (p : prog A) : bool :=
  match p with Act _ _ => false | _ => true end.

(** ** 6. The bot *)

(** [check_payment_status] (lines 58-104). *)
Definition check_payment_status (bill_number md5_hash : string) (chat_id message_id : Z)
  : prog bool :=
  try_catch
    (payment_status <- call (check_payment md5_hash) ;;
     if String.eqb payment_status "PAID" then
       (if truthy message_id then
          try_catch
            (call (delete_message chat_id message_id) ;;
             call (print (LogDeletedQr message_id bill_number)))
            (fun delete_e => call (print (LogDeleteFailed message_id delete_e)))
        else Ret tt) ;;
       call (send_message chat_id (PaymentCompleted bill_number payment_status)) ;;
       with_lock
         (present <- call (tx_contains bill_number) ;;
          if (present : bool) then
            call (tx_del bill_number) ;;
            call (print (LogRemovedAfterSuccess bill_number))
          else Ret tt) ;;
       Ret true
     else Ret false)
    (fun e =>
       call (print (LogCheckFailed bill_number e)) ;;
       try_catch (call (send_message chat_id CheckError)) (fun _ => Ret tt) ;;
       Ret false).

(** One turn of the [for] loop of the polling thread (lines 121-150);
    [transactions_to_remove] is threaded through. *)
Definition process_item (current_time : Z) (item : string * Transaction)
  (transactions_to_remove : list string) : prog (list string) :=
  let '(bill_number, data) := item in
  if (expiry_time data <? current_time)%Z then
    (if truthy (message_id data) then
       try_catch
         (call (delete_message (chat_id data) (message_id data)))
         (fun delete_e => call (print (LogExpiredDeleteFailed (message_id data) delete_e)))
     else Ret tt) ;;
    call (send_message (chat_id data) (Expired bill_number)) ;;
    Ret (transactions_to_remove ++ [bill_number])
  else
    payment_confirmed <-
      check_payment_status bill_number (md5_hash data) (chat_id data) (message_id data) ;;
    Ret (if (payment_confirmed : bool)
         then transactions_to_remove ++ [bill_number]
         else transactions_to_remove).

Fixpoint process_items (current_time : Z) (items_to_check : dict)
  (transactions_to_remove : list string) : prog (list string) :=
  match items_to_check with
  | [] => Ret transactions_to_remove
  | item :: rest =>
      marked <- process_item current_time item transactions_to_remove ;;
      process_items current_time rest marked
  end.

(** Lines 154-158. *)
Fixpoint remove_marked (transactions_to_remove : list string) : prog unit :=
  match transactions_to_remove with
  | [] => Ret tt
  | key :: rest =>
      present <- call (tx_contains key) ;;
      (if (present : bool) then
         call (tx_del key) ;;
         call (print (LogRemoved key))
       else Ret tt) ;;
      remove_marked rest
  end.

(** The body of [while True] in [check_and_cleanup_transactions]
    (lines 113-161). *)
Definition cleanup_pass : prog unit :=
  current_time <- call time_time ;;
  items_to_check <- with_lock (call tx_items) ;;
  transactions_to_remove <- process_items current_time items_to_check [] ;;
  with_lock (remove_marked transactions_to_remove) ;;
  call (time_sleep CHECK_INTERVAL_SECONDS).

(** [check_and_cleanup_transactions], cut after [ticks] turns of its
    endless loop; an exception leaves the loop and ends the thread. *)
Fixpoint check_and_cleanup_transactions (ticks : nat) : prog unit :=
  match ticks with
  | O => Ret tt
  | S n => cleanup_pass ;; check_and_cleanup_transactions n
  end.

(** [send_welcome] (lines 166-175). *)
Definition send_welcome (message : Message) : prog unit :=
  call (reply_to message Welcome).

(** The data attached to the confirm button (line 240). *)
Definition confirm_callback_data (bill_number : string) : string :=
  (CONFIRM_CALLBACK_PREFIX ++ bill_number)%string.

(** The filter of the callback handler (line 279). *)
Definition is_confirm_callback (c : CallbackQuery) : bool :=
  startswith CONFIRM_CALLBACK_PREFIX (call_data c).

(** The bill number carried by a callback (line 287). *)
Definition callback_bill_number (data : string) : string :=
  str_from (String.length CONFIRM_CALLBACK_PREFIX) data.

(** Step 8 of [generate_khqr_payment] (lines 263-269). *)
Definition store_transaction (bill_number : string) (data : Transaction) : prog unit :=
  with_lock (call (tx_set bill_number data)).

(** [generate_khqr_payment] (lines 178-275).  [khqr_client] tells whether
    the Bakong client could be created at start-up (lines 49-54). *)
Definition generate_khqr_payment (khqr_client : bool) (message : Message) : prog unit :=
  if negb khqr_client then
    call (reply_to message ServiceNotInitialized)
  else
    try_catch
      (let parts := text_parts message in
       if (List.length parts <? 2)%nat then
         call (reply_to message AmountMissing)
       else
         amount <- call (float_of (nth 1 parts "")) ;;
         description <-
           (if (List.length parts =? 3)%nat then Ret (nth 2 parts "")
            else t <- call time_time ;; Ret ("Payment Ref " ++ str_of_int t)%string) ;;
         t_id <- call time_time ;;
         let bill_number := ("TRX" ++ str_of_int (t_id * 1000))%string in
         t_now <- call time_time ;;
         let expiry_time := (t_now + EXPIRATION_SECONDS)%Z in
         call (reply_to message (Generating amount bill_number)) ;;
         qr_string <- call (create_qr amount bill_number (str_upto 25 description)) ;;
         md5_hash <- call (generate_md5 qr_string) ;;
         image <-
           try_catch
             (qr_image_bytes <- call (qr_image qr_string) ;; Ret (Some qr_image_bytes))
             (fun img_e =>
                call (reply_to message ImageError) ;;
                call (print (LogImageFailed img_e)) ;;
                Ret None) ;;
         match image with
         | None => Ret tt
         | Some qr_image_bytes =>
             let callback_data := confirm_callback_data bill_number in
             sent_message_id <-
               call (send_photo (msg_chat_id message) qr_image_bytes
                       (QrCaption amount description bill_number expiry_time)
                       (ConfirmKeyboard callback_data)) ;;
             store_transaction bill_number
               {| md5_hash := md5_hash;
                  expiry_time := expiry_time;
                  chat_id := msg_chat_id message;
                  message_id := sent_message_id |}
         end)
      (fun e =>
         match e with
         | ValueError => call (reply_to message BadAmountFormat)
         | _ =>
             call (print (LogPayFailed e)) ;;
             call (reply_to message (PayFailed e))
         end).

(** [handle_confirm_payment] (lines 280-339).  The block under the lock
    yields [None] when the handler returns from inside it. *)
Definition handle_confirm_payment (c : CallbackQuery) : prog unit :=
  call (answer_callback_query (call_id c) CheckingStatus) ;;
  let bill_number := callback_bill_number (call_data c) in
  found <-
    with_lock
      (present <- call (tx_contains bill_number) ;;
       if negb present then
         try_catch
           (match call_caption c with
            | None => Raise TypeError
            | Some old =>
                call (edit_message_caption (call_chat_id c) (call_message_id c)
                        (NoLongerCheckable old) NoMarkup)
            end)
           (fun e => call (print (LogEditFailed e))) ;;
         call (send_message (call_chat_id c) (NotTracked bill_number)) ;;
         Ret None
       else
         data <- call (tx_get bill_number) ;;
         match data with
         | None => Raise TypeError
         | Some d => Ret (Some (md5_hash d, chat_id d, message_id d))
         end) ;;
  match found with
  | None => Ret tt
  | Some (md5_hash, chat_id, message_id) =>
      payment_confirmed <- check_payment_status bill_number md5_hash chat_id message_id ;;
      if negb payment_confirmed then
        try_catch
          (match call_caption c with
           | None => Raise AttributeError
           | Some old =>
               call (edit_message_caption chat_id message_id
                       (ShowUnpaid old) (call_reply_markup c))
           end)
          (fun e => call (print (LogCaptionFailed e))) ;;
        call (send_message chat_id (StillUnpaid bill_number))
      else Ret tt
  end.

(** ** 7. Observing traces *)

Definition ev_ok (e : event) : bool :=
  match ev_reply e with Ok _ => true | Err _ => false end.

(** Calls to the Telegram bot. *)
Definition is_notifier_call (e : event) : bool :=
  match ev_action e with
  | answer_callback_query _ _ | delete_message _ _ | send_message _ _
  | reply_to _ _ | edit_message_caption _ _ _ _ | send_photo _ _ _ _ => true
  | _ => false
  end.

Definition is_external_call (e : event) : bool :=
  match ev_action e with
  | check_payment _ | create_qr _ _ _ | generate_md5 _ | qr_image _ => true
  | _ => is_notifier_call e
  end.

(** [send_message] calls, whatever their text. *)
Definition is_send_message (e : event) : bool :=
  match ev_action e with send_message _ _ => true | _ => false end.

(** The success message for [bill], delivered. *)
Definition is_paid_notice (bill : string) (e : event) : bool :=
  match ev_action e with
  | send_message _ (PaymentCompleted b _) => String.eqb b bill && ev_ok e
  | _ => false
  end.

(** The expiry message for [bill], delivered. *)
Definition is_expired_notice (bill : string) (e : event) : bool :=
  match ev_action e with
  | send_message _ (Expired b) => String.eqb b bill && ev_ok e
  | _ => false
  end.

(** The "check error" message to [chat], delivered. *)
Definition is_check_error_notice (chat : Z) (e : event) : bool :=
  match ev_action e with
  | send_message c CheckError => (c =? chat)%Z && ev_ok e
  | _ => false
  end.

(** The "no longer tracked" message for [bill] to [chat]. *)
Definition is_not_tracked_notice (chat : Z) (bill : string) (e : event) : bool :=
  match ev_action e with
  | send_message c (NotTracked b) => (c =? chat)%Z && String.eqb b bill
  | _ => false
  end.

(** A [del active_transactions[bill]] that removed the entry. *)
Definition is_removal (bill : string) (e : event) : bool :=
  match ev_action e with
  | tx_del b => String.eqb b bill && ev_ok e
  | _ => false
  end.

(** A write [active_transactions[k] = v]. *)
Definition is_store_write (e : event) : bool :=
  match ev_action e with tx_set _ _ | tx_del _ => true | _ => false end.

Definition is_clock_read (e : event) : bool :=
  match ev_action e with time_time => true | _ => false end.

Definition count (f : event -> bool) (tr : list event) : nat :=
  List.length (filter f tr).

(** The fingerprints the payment network was asked about, in order. *)
Fixpoint oracle_queries (tr : list event) : list string :=
  match tr with
  | [] => []
  | e :: tr' =>
      match ev_action e with
      | check_payment h => h :: oracle_queries tr'
      | _ => oracle_queries tr'
      end
  end.

(** The events added to the trace between two worlds. *)
Definition since (w w' : World) : list event :=
  skipn (List.length (trace w)) (trace w').

(** Does a thread make an external call while it holds the lock?
    [held] tells whether it holds it at the start of [tr]. *)
Fixpoint external_under_lock (held : bool) (tr : list event) : bool :=
  match tr with
  | [] => false
  | e :: tr' =>
      match ev_action e with
      | lock_acquire => external_under_lock (ev_ok e) tr'
      | lock_release => external_under_lock false tr'
      | _ => (held && is_external_call e) || external_under_lock held tr'
      end
  end.

(** The records of a snapshot that the polling pass does not expire. *)
Definition unexpired (current_time : Z) (item : string * Transaction) : bool :=
  negb (expiry_time (snd item) <? current_time)%Z.

(** The records assigned into the dictionary, in order. *)
Fixpoint assignments (tr : list event) : list (string * Transaction) :=
  match tr with
  | [] => []
  | e :: tr' =>
      match ev_action e with
      | tx_set k v => (k, v) :: assignments tr'
      | _ => assignments tr'
      end
  end.



(** The world a run ends in, and how it ends. *)
Definition world_after {A : Type} (env : Env) (p : prog A) (w : World) : World :=
  snd (run env p w).
Definition outcome_of {A : Type} (env : Env) (p : prog A) (w : World) : outcome A :=
  fst (run env p w).

(** The events a run adds to the trace. *)
Definition events_of {A : Type} (env : Env) (p : prog A) (w : World) : list event :=
  since w (world_after env p w).

(** [d'] is [d] after some deletions. *)
Definition shrunk (d d' : dict) : Prop :=
  incl d' d /\ (NoDup (dict_keys d) -> NoDup (dict_keys d')).

(** The record is expired for a pass that read [current_time] and is kept
    under [bill]. *)
Definition expired_as (current_time : Z) (bill : string)
  (item : string * Transaction) : bool :=
  negb (unexpired current_time item) && String.eqb (fst item) bill.

(** ** 8. Concrete environments and inputs *)

(** An environment in which nothing fails: every payment is "UNPAID". *)
Definition calm (a : action) : reply (result a) :=
  match a as a0 return reply (result a0) with
  | check_payment _ => Ok "UNPAID"
  | create_qr _ bill _ => Ok ("khqr:" ++ bill)%string
  | generate_md5 qr => Ok ("md5:" ++ qr)%string
  | qr_image _ => Ok "png"
  | send_photo _ _ _ _ => Ok 501%Z
  | float_of s => Ok (Float s)
  | time_time => Ok 0%Z
  | tx_contains _ => Ok false
  | tx_get _ => Ok None
  | tx_items => Ok []
  | answer_callback_query _ _ => Ok tt
  | delete_message _ _ => Ok tt
  | send_message _ _ => Ok tt
  | reply_to _ _ => Ok tt
  | edit_message_caption _ _ _ _ => Ok tt
  | time_sleep _ => Ok tt
  | print _ => Ok tt
  | lock_acquire => Ok tt
  | lock_release => Ok tt
  | tx_set _ _ => Ok tt
  | tx_del _ => Ok tt
  end.

(** The clock shows [now]; the payment network answers [status]. *)
Definition env_status (now : Z) (status : string -> reply string) : Env :=
  mkEnv (fun _ => now)
        (fun _ a =>
           match a as a0 return reply (result a0) with
           | check_payment h => status h
           | a' => calm a'
           end).

(** As [env_status], but Telegram refuses every expiry message. *)
Definition env_expiry_refused (now : Z) (status : string -> reply string) : Env :=
  mkEnv (fun _ => now)
        (fun _ a =>
           match a as a0 return reply (result a0) with
           | check_payment h => status h
           | send_message c (Expired b) => Err (ApiException 403)
           | a' => calm a'
           end).

Definition always (s : string) : string -> reply string := fun _ => Ok s.
Definition network_down : string -> reply string := fun _ => Err (ApiException 500).

Definition world_of (d : dict) : World := mkWorld d false [].

Definition T1 : Transaction := mkTransaction "f1" 1300 42 7.
Definition T2 : Transaction := mkTransaction "f2" 1900 43 8.

Definition press (bill : string) : CallbackQuery :=
  mkCallbackQuery "cb1" (confirm_callback_data bill) 42 7
                  (Some "caption") (ConfirmKeyboard (confirm_callback_data bill)).

(** ** 9. Invariants of threads

    What a thread still has to do is read off its remaining program.  The
    predicates below look at every answer the program may get; answers are
    restricted to those of a run in which the payment network says "PAID"
    and Telegram delivers the success message, and in which the actions
    that cannot raise do not. *)

Definition said_paid (e : event) : bool :=
  match e with
  | Ev a r =>
      match a as a0 return reply (result a0) -> bool with
      | check_payment _ =>
          fun r => match r with Ok s => String.eqb s "PAID" | Err _ => false end
      | _ => fun _ => true
      end r
  end.

Definition paid_and_delivered (e : event) : bool :=
  match ev_action e with
  | check_payment _ => said_paid e
  | send_message _ (PaymentCompleted _ _) => ev_ok e
  | print _ | time_sleep _ | time_time | lock_acquire
  | tx_contains _ | tx_get _ | tx_set _ _ | tx_items => ev_ok e
  | _ => true
  end.

(** [p] will deliver exactly [n] more success messages for [bill]. *)
Fixpoint owes (bill : string) {A : Type} (p : prog A) (n : nat) : Prop :=
  match p with
  | Ret _ | Raise _ => n = O
  | Act a k =>
      forall r, paid_and_delivered (Ev a r) = true ->
        if is_paid_notice bill (Ev a r)
        then match n with O => False | S n' => owes bill (k r) n' end
        else owes bill (k r) n
  end.

(** The event shows that [bill] is not in the dictionary once it is done. *)
Definition clears (bill : string) (e : event) : bool :=
  match e with
  | Ev a r =>
      match a as a0 return reply (result a0) -> bool with
      | tx_del b => fun _ => String.eqb b bill
      | tx_contains b =>
          fun r => match r with
                   | Ok present => String.eqb b bill && negb present
                   | Err _ => false
                   end
      | _ => fun _ => false
      end r
  end.

(** Before it ends, [p] sees or makes [bill] absent. *)
Fixpoint will_clear (bill : string) {A : Type} (p : prog A) : Prop :=
  match p with
  | Ret _ | Raise _ => False
  | Act a k =>
      forall r, paid_and_delivered (Ev a r) = true ->
        clears bill (Ev a r) = true \/ will_clear bill (k r)
  end.

(** [p] never assigns into the dictionary. *)
Fixpoint never_assigns {A : Type} (p : prog A) : Prop :=
  match p with
  | Ret _ | Raise _ => True
  | Act a k =>
      match a with tx_set _ _ => False | _ => True end /\
      forall r, never_assigns (k r)
  end.

(** 1 while [bill] is in the dictionary, 0 after. *)
Definition present_count (bill : string) (w : World) : nat :=
  if dict_contains bill (active_transactions w) then 1%nat else 0%nat.

(** What stays true while threads that check [bill] are interleaved:
    success messages delivered plus those still owed make [notices], and
    removals made plus the entry still present make [removals]. *)
Record race_invariant (bill : string) {A : Type} (notices removals : nat)
  (w : World) (pool : list (prog A)) : Prop := {
  inv_nodup : NoDup (dict_keys (active_transactions w));
  inv_never_assigns : Forall never_assigns pool;
  inv_clear :
    Forall (fun p => dict_contains bill (active_transactions w) = false \/
                     will_clear bill p) pool;
  inv_owes :
    exists ns, Forall2 (owes bill) pool ns /\
               (count (is_paid_notice bill) (trace w) + list_sum ns)%nat = notices;
  inv_removed :
    (count (is_removal bill) (trace w) + present_count bill w)%nat = removals
}.

(** [p] ends within [n] actions, whatever it is answered. *)
Fixpoint ends_within {A : Type} (n : nat) (p : prog A) {struct p} : Prop :=
  match p with
  | Ret _ | Raise _ => True
  | Act a k =>
      match n with
      | O => False
      | S n' => forall r, ends_within n' (k r)
      end
  end.

(** The threads of [n] racing checks of one bill number; each has its own
    copy of the fingerprint, chat and message read earlier. *)
Definition racing_checks (bill : string) (args : list (string * Z * Z))
  : list (prog bool) :=
  map (fun '(md5, chat, message) => check_payment_status bill md5 chat message) args.

(** A schedule that lets the threads run one after the other. *)
Definition one_by_one (threads steps : nat) : list nat :=
  flat_map (fun i => repeat i steps) (seq 0 threads).

(** *** A race between the polling thread and a button press

    The polling thread takes its snapshot, the button handler then runs to
    its end, and the polling thread resumes with the stale snapshot. *)
Definition race_env : Env := env_status 1000 (always "PAID").
Definition race_start : World * list (prog unit) :=
  (world_of [("TRX1", T1)],
   [check_and_cleanup_transactions 1; handle_confirm_payment (press "TRX1")]).
Definition race_schedule : list nat :=
  repeat 0%nat 4 ++ repeat 1%nat 14 ++ repeat 0%nat 12.

(** ** 10. More observations *)

(** The [send_message] calls made, in order: chat and text. *)
Fixpoint sent_messages (tr : list event) : list (Z * text) :=
  match tr with
  | [] => []
  | e :: tr' =>
      match ev_action e with
      | send_message chat t => (chat, t) :: sent_messages tr'
      | _ => sent_messages tr'
      end
  end.

(** The [reply_to] calls made, in order. *)
Fixpoint replies (tr : list event) : list text :=
  match tr with
  | [] => []
  | e :: tr' =>
      match ev_action e with
      | reply_to _ t => t :: replies tr'
      | _ => replies tr'
      end
  end.

(** The photos Telegram accepted: chat, keyboard and the id it gave to the
    message. *)
Definition sent_photo (e : event) : option (Z * markup * Z) :=
  match e with
  | Ev a r =>
      match a as a0 return reply (result a0) -> option (Z * markup * Z) with
      | send_photo chat _ _ k =>
          fun r => match r with Ok id => Some (chat, k, id) | Err _ => None end
      | _ => fun _ => None
      end r
  end.

Fixpoint sent_photos (tr : list event) : list (Z * markup * Z) :=
  match tr with
  | [] => []
  | e :: tr' =>
      match sent_photo e with
      | Some x => x :: sent_photos tr'
      | None => sent_photos tr'
      end
  end.

(** The lock as a thread sees it after one of its own events. *)
Definition lock_next (held : bool) (e : event) : bool :=
  match ev_action e with
  | lock_acquire => if ev_ok e then true else held
  | lock_release => if ev_ok e then false else held
  | _ => held
  end.

(** The answers the lock can give to a thread that holds it or not: an
    acquire that goes through succeeds, a release succeeds exactly when the
    lock is held. *)
Definition lock_answer (held : bool) (e : event) : bool :=
  match ev_action e with
  | lock_acquire => ev_ok e
  | lock_release => if held then ev_ok e else negb (ev_ok e)
  | _ => true
  end.

(** [p], started by a thread that holds the lock or not ([held]), never
    acquires the lock while it holds it and has released it when it ends,
    normally or by an exception. *)
Fixpoint lock_tracked (held : bool) {A : Type} (p : prog A) : Prop :=
  match p with
  | Ret _ | Raise _ => held = false
  | Act a k =>
      match a with lock_acquire => held = false | _ => True end /\
      forall r, lock_answer held (Ev a r) = true ->
                lock_tracked (lock_next held (Ev a r)) (k r)
  end.

(** [p] keeps the lock as it found it, at every action and at its end. *)
Fixpoint lock_untouched {A : Type} (p : prog A) : Prop :=
  match p with
  | Ret _ | Raise _ => True
  | Act a k =>
      match a with lock_acquire | lock_release => False | _ => True end /\
      forall r, lock_untouched (k r)
  end.

(** [p] never performs an action that [bad] marks. *)
Fixpoint avoids (bad : action -> bool) {A : Type} (p : prog A) : Prop :=
  match p with
  | Ret _ | Raise _ => True
  | Act a k => bad a = false /\ forall r, avoids bad (k r)
  end.

Definition reads_clock (a : action) : bool :=
  match a with time_time => true | _ => false end.

Definition deletes_or_checks (a : action) : bool :=
  match a with tx_del _ | check_payment _ => true | _ => false end.

(** The work a thread of the bot can be given once a payment is pending. *)
Inductive job : Type :=
| Poll (ticks : nat)              (* the polling thread, for [ticks] passes *)
| Press (c : CallbackQuery).      (* a press of the confirm button *)

Definition thread_of (j : job) : prog unit :=
  match j with
  | Poll ticks => check_and_cleanup_transactions ticks
  | Press c => handle_confirm_payment c
  end.

(** The payment network says "PAID" but Telegram refuses every success
    message. *)
Definition env_success_refused (now : Z) : Env :=
  mkEnv (fun _ => now)
        (fun _ a =>
           match a as a0 return reply (result a0) with
           | check_payment _ => Ok "PAID"
           | send_message _ (PaymentCompleted _ _) => Err (ApiException 403)
           | a' => calm a'
           end).

(** The pause between two polling passes. *)
Definition is_interval_sleep (e : event) : bool :=
  match ev_action e with
  | time_sleep s => (s =? CHECK_INTERVAL_SECONDS)%Z
  | _ => false
  end.

Definition sleeps_or_reads_clock (a : action) : bool :=
  match a with time_sleep _ | time_time => true | _ => false end.

(** The record is not expired for a pass that read [current_time] and is
    kept under [bill]. *)
Definition unexpired_as (current_time : Z) (bill : string)
  (item : string * Transaction) : bool :=
  unexpired current_time item && String.eqb (fst item) bill.

(** The actions that leave the process: calls to the Bakong client and to
    Telegram. *)
Definition external_action (a : action) : bool :=
  match a with
  | check_payment _ | create_qr _ _ _ | generate_md5 _ | qr_image _
  | answer_callback_query _ _ | delete_message _ _ | send_message _ _
  | reply_to _ _ | edit_message_caption _ _ _ _ | send_photo _ _ _ _ => true
  | _ => false
  end.

(** [p], started by a thread that holds the lock or not ([held]), makes no
    external call while it holds the lock. *)
Fixpoint lock_disciplined (held : bool) {A : Type} (p : prog A) : Prop :=
  match p with
  | Ret _ | Raise _ => True
  | Act a k =>
      (held = true -> external_action a = false) /\
      forall r, lock_answer held (Ev a r) = true ->
                lock_disciplined (lock_next held (Ev a r)) (k r)
  end.

(** The calls made to Telegram, in order. *)
Definition notifier_calls (tr : list event) : list action :=
  map ev_action (filter is_notifier_call tr).


(** The message a polling pass at [current_time] owes the holder of a
    record whose payment is "PAID": the expiry message when the deadline is
    behind the clock, the success message otherwise; to the chat stored in
    the record. *)
Definition settling_message (current_time : Z) (item : string * Transaction)
  : Z * text :=
  (chat_id (snd item),
   if unexpired current_time item
   then PaymentCompleted (fst item) "PAID"
   else Expired (fst item)).

(** As [env_status], but Telegram refuses to answer callback queries (the
    query is too old). *)
Definition env_callback_refused (now : Z) (status : string -> reply string) : Env :=
  mkEnv (fun _ => now)
        (fun _ a =>
           match a as a0 return reply (result a0) with
           | check_payment h => status h
           | answer_callback_query _ _ => Err (ApiException 400)
           | a' => calm a'
           end).

(** * Properties *)

(** ** Strings *)

Lemma str_from_append (p s : string) :
  str_from (String.length p) (p ++ s)%string = s.
Proof.
  induction p as [|c p IH]; simpl.
  - destruct s; reflexivity.
  - exact IH.
Qed.

Lemma prefix_append (p s : string) : String.prefix p (p ++ s)%string = true.
Proof.
  induction p as [|c p IH]; simpl.
  - destruct s; reflexivity.
  - destruct (Ascii.ascii_dec c c) as [_|ne]; [exact IH | now elim ne].
Qed.

(** C10: the bill number put behind the confirm prefix in the button's
    callback data (line 240) is what the handler gets back by dropping
    [len(CONFIRM_CALLBACK_PREFIX)] characters (line 287), for every bill
    number; such callback data also passes the handler's filter. *)
Theorem callback_round_trip (bill_number : string) :
  callback_bill_number (confirm_callback_data bill_number) = bill_number /\
  startswith CONFIRM_CALLBACK_PREFIX (confirm_callback_data bill_number) = true.
Proof.
  unfold callback_bill_number, confirm_callback_data, startswith. split.
  - apply str_from_append.
  - apply prefix_append.
Qed.

(** ** Dictionaries *)

Lemma dict_get_set_same k v d : dict_get k (dict_set k v d) = Some v.
Proof.
  induction d as [|[k' v'] d IH]; simpl.
  - now rewrite String.eqb_refl.
  - destruct (String.eqb k' k) eqn:E; simpl; rewrite E; auto.
Qed.

Lemma dict_get_set_other k k' v d :
  k' <> k -> dict_get k' (dict_set k v d) = dict_get k' d.
Proof.
  intros ne. induction d as [|[k0 v0] d IH]; simpl.
  - destruct (String.eqb_spec k k'); congruence.
  - destruct (String.eqb_spec k0 k); simpl.
    + subst k0. destruct (String.eqb_spec k k'); congruence.
    + now rewrite IH.
Qed.

Lemma dict_keys_set_present k v d :
  dict_contains k d = true -> dict_keys (dict_set k v d) = dict_keys d.
Proof.
  unfold dict_contains, dict_keys.
  induction d as [|[k0 v0] d IH]; simpl; [discriminate|].
  destruct (String.eqb k0 k); simpl; intros H; [reflexivity|].
  now rewrite IH.
Qed.

Lemma dict_contains_In k d : dict_contains k d = true <-> In k (dict_keys d).
Proof.
  unfold dict_contains, dict_keys.
  induction d as [|[k0 v0] d IH]; simpl.
  - split; [discriminate | tauto].
  - destruct (String.eqb_spec k0 k).
    + split; auto.
    + rewrite IH. split; [auto | intros [H|H]; [congruence | exact H]].
Qed.

Lemma dict_del_incl k d : incl (dict_del k d) d.
Proof.
  induction d as [|[k0 v0] d IH]; simpl.
  - apply incl_refl.
  - destruct (String.eqb k0 k).
    + apply incl_tl, incl_refl.
    + intros x [H|H]; [now left | right; now apply IH].
Qed.

Lemma dict_del_keys_incl k d : incl (dict_keys (dict_del k d)) (dict_keys d).
Proof.
  unfold dict_keys. intros x H. apply in_map_iff in H as [[k1 v1] [E H]].
  apply in_map_iff. exists (k1, v1). split; [exact E|]. now apply (dict_del_incl k).
Qed.

Lemma dict_del_NoDup k d : NoDup (dict_keys d) -> NoDup (dict_keys (dict_del k d)).
Proof.
  induction d as [|[k0 v0] d IH]; simpl; intros H; [exact H|].
  inversion H as [|? ? Hnotin Hnd]; subst.
  destruct (String.eqb k0 k); simpl; [exact Hnd|].
  constructor; [|now apply IH].
  intros Hin. apply Hnotin. now apply (dict_del_keys_incl k).
Qed.

Lemma dict_contains_del_same k d :
  NoDup (dict_keys d) -> dict_contains k (dict_del k d) = false.
Proof.
  intros H. destruct (dict_contains k (dict_del k d)) eqn:E; [|reflexivity].
  exfalso. apply dict_contains_In in E. revert H E.
  induction d as [|[k0 v0] d IH]; simpl; intros H E; [exact E|].
  inversion H as [|? ? Hnotin Hnd]; subst.
  destruct (String.eqb_spec k0 k).
  - subst k0. contradiction.
  - simpl in E. destruct E as [E|E]; [congruence | auto].
Qed.

Lemma dict_get_del_other k k' d :
  k' <> k -> dict_get k' (dict_del k d) = dict_get k' d.
Proof.
  intros ne. induction d as [|[k0 v0] d IH]; simpl; [reflexivity|].
  destruct (String.eqb_spec k0 k); simpl.
  - subst k0. destruct (String.eqb_spec k k'); congruence.
  - now rewrite IH.
Qed.

Lemma dict_contains_del_other k k' d :
  k' <> k -> dict_contains k' (dict_del k d) = dict_contains k' d.
Proof. intros ne. unfold dict_contains. now rewrite dict_get_del_other. Qed.

Lemma dict_contains_del_absent k k' d :
  dict_contains k' d = false -> dict_contains k' (dict_del k d) = false.
Proof.
  intros H. destruct (dict_contains k' (dict_del k d)) eqn:E; [|reflexivity].
  apply dict_contains_In in E. apply dict_del_keys_incl in E.
  apply dict_contains_In in E. congruence.
Qed.

(** ** Running programs *)

Lemma run_bind {A B : Type} env (p : prog A) (f : A -> prog B) w :
  run env (bind p f) w =
  match run env p w with
  | (Returned a, w') => run env (f a) w'
  | (Raised e, w') => (Raised e, w')
  | (Blocked, w') => (Blocked, w')
  end.
Proof.
  revert w. induction p as [a|e|a k IH]; intros w; simpl; try reflexivity.
  destruct (perform env w a) as [[r w']|]; [apply IH | reflexivity].
Qed.

Lemma perform_trace env w a r w' :
  perform env w a = Some (r, w') -> trace w' = trace w ++ [Ev a r].
Proof.
  unfold perform. destruct (answer env w a) as [[[r0 d] l]|]; [|discriminate].
  intros H. injection H as <- <-. reflexivity.
Qed.

(** A run only appends to the trace. *)
Lemma run_trace {A : Type} env (p : prog A) w :
  exists evs, trace (snd (run env p w)) = trace w ++ evs.
Proof.
  revert w. induction p as [a|e|a k IH]; intros w; simpl.
  - exists []. now rewrite app_nil_r.
  - exists []. now rewrite app_nil_r.
  - destruct (perform env w a) as [[r w']|] eqn:E; simpl.
    + destruct (IH r w') as [evs H]. exists (Ev a r :: evs).
      rewrite H, (perform_trace _ _ _ _ _ E), <- app_assoc. reflexivity.
    + exists []. now rewrite app_nil_r.
Qed.

Lemma since_app w w' evs : trace w' = trace w ++ evs -> since w w' = evs.
Proof.
  unfold since. intros ->. rewrite skipn_app, skipn_all, Nat.sub_diag. reflexivity.
Qed.

Lemma events_of_eq {A : Type} env (p : prog A) w o d l evs :
  run env p w = (o, mkWorld d l (trace w ++ evs)) -> events_of env p w = evs.
Proof.
  intros H. unfold events_of, world_after. rewrite H. now apply since_app.
Qed.

Lemma count_app f l1 l2 : count f (l1 ++ l2) = (count f l1 + count f l2)%nat.
Proof. unfold count. now rewrite filter_app, length_app. Qed.

Lemma oracle_queries_app l1 l2 :
  oracle_queries (l1 ++ l2) = oracle_queries l1 ++ oracle_queries l2.
Proof.
  induction l1 as [|e l1 IH]; simpl; [reflexivity|].
  destruct (ev_action e); simpl; now rewrite IH.
Qed.

(** Symbolic execution of a run: take the next action, splitting on what
    the environment or the dictionary answers. *)
Ltac run_step :=
  match goal with
  | H : dict_contains ?k ?d = _ |- context [dict_contains ?k ?d] => rewrite H
  | |- context [external ?e ?t ?a] =>
      let r := fresh "r" in destruct (external e t a) as [r|r] eqn:?
  | |- context [String.eqb ?s "PAID"] => destruct (String.eqb s "PAID") eqn:?
  | |- context [truthy ?m] => destruct (truthy m) eqn:?
  | |- context [dict_contains ?k ?d] => destruct (dict_contains k d) eqn:?
  | |- context [dict_get ?k ?d] => destruct (dict_get k d) eqn:?
  | |- context [match ?x with ValueError => _ | _ => _ end] => destruct x
  end.

Ltac run_all :=
  cbn; repeat (first [run_step | progress unfold perform, answer]; cbn);
  repeat rewrite <- app_assoc; cbn.

(** ** The confirm button on an unknown bill number *)

(** C6 as specified does not hold: for a bill number that is not tracked
    the handler does call the notifier (it answers the callback, edits the
    caption and sends a message). *)
Lemma untracked_press_calls_notifier :
  let w := world_of [("TRX1", T1)] in
  let evs := events_of (env_status 1000 (always "UNPAID"))
                       (handle_confirm_payment (press "TRX9")) w in
  dict_contains "TRX9" (active_transactions w) = false /\
  count is_notifier_call evs = 3%nat /\
  count is_send_message evs = 1%nat.
Proof. vm_compute. repeat split. Qed.

(** C6, amended: a press of the confirm button for a bill number that is
    not in the dictionary changes neither the dictionary nor the lock,
    asks the payment network nothing and sends no success or expiry
    message; once the callback is answered, it calls [send_message]
    exactly once, with the "no longer tracked" notice for that bill number
    to the chat of the button.  Its calls to Telegram are then, in this
    order: the answer to the callback; the edit of the caption of the
    button's message (the old caption with the warning, no keyboard), made
    whenever that message has a caption; the notice. *)
Theorem untracked_press env (c : CallbackQuery) (w : World) :
  transaction_lock w = false ->
  dict_contains (callback_bill_number (call_data c)) (active_transactions w) = false ->
  let w' := world_after env (handle_confirm_payment c) w in
  let evs := events_of env (handle_confirm_payment c) w in
  active_transactions w' = active_transactions w /\
  transaction_lock w' = false /\
  count is_store_write evs = 0%nat /\
  oracle_queries evs = [] /\
  (forall b, count (is_paid_notice b) evs = 0%nat /\
             count (is_expired_notice b) evs = 0%nat) /\
  (external env (trace w) (answer_callback_query (call_id c) CheckingStatus) = Ok tt ->
   count is_send_message evs = 1%nat /\
   count (is_not_tracked_notice (call_chat_id c)
            (callback_bill_number (call_data c))) evs = 1%nat /\
   notifier_calls evs
     = answer_callback_query (call_id c) CheckingStatus
       :: match call_caption c with
          | Some old =>
              [edit_message_caption (call_chat_id c) (call_message_id c)
                 (NoLongerCheckable old) NoMarkup]
          | None => []
          end
       ++ [send_message (call_chat_id c)
             (NotTracked (callback_bill_number (call_data c)))]).
Proof.
  intros Hl Hc. destruct w as [d l tr]. simpl in Hl, Hc. subst l.
  cbv zeta. unfold events_of, world_after, handle_confirm_payment.
  generalize dependent (callback_bill_number (call_data c)). intros bill Hc.
  match goal with |- context [run env ?p _] => set (handler := p) end.
  assert (H : exists o evs,
    run env handler (mkWorld d false tr)
      = (o, mkWorld d false (tr ++ evs)) /\
    count is_store_write evs = 0%nat /\
    oracle_queries evs = [] /\
    (forall b, count (is_paid_notice b) evs = 0%nat /\
               count (is_expired_notice b) evs = 0%nat) /\
    (external env tr (answer_callback_query (call_id c) CheckingStatus) = Ok tt ->
     count is_send_message evs = 1%nat /\
     count (is_not_tracked_notice (call_chat_id c) bill) evs = 1%nat /\
     notifier_calls evs
       = answer_callback_query (call_id c) CheckingStatus
         :: match call_caption c with
            | Some old =>
                [edit_message_caption (call_chat_id c) (call_message_id c)
                   (NoLongerCheckable old) NoMarkup]
            | None => []
            end
         ++ [send_message (call_chat_id c) (NotTracked bill)])).
  { unfold handler, with_lock.
    destruct (call_caption c) as [old|]; run_all.
    all: do 2 eexists; (split; [reflexivity|]).
    all: cbn; repeat split; try reflexivity; try congruence.
    all: now rewrite Z.eqb_refl, String.eqb_refl. }
  destruct H as (o & evs & Hrun & H1 & H2 & H3 & H4).
  rewrite Hrun. simpl. rewrite (since_app _ _ evs) by reflexivity.
  split; [reflexivity|]. split; [reflexivity|]. split; [exact H1|].
  split; [exact H2|]. split; [exact H3 | exact H4].
Qed.

Lemma untracked_press_witness :
  let env := env_status 1000 (always "UNPAID") in
  let w := world_of [("TRX1", T1)] in
  transaction_lock w = false /\
  dict_contains (callback_bill_number (call_data (press "TRX9")))
                (active_transactions w) = false /\
  active_transactions (world_after env (handle_confirm_payment (press "TRX9")) w)
    = active_transactions w /\
  count is_send_message (events_of env (handle_confirm_payment (press "TRX9")) w) = 1%nat.
Proof.
  cbv zeta. split; [reflexivity|]. split; [reflexivity|].
  destruct (untracked_press (env_status 1000 (always "UNPAID")) (press "TRX9")
              (world_of [("TRX1", T1)]) eq_refl eq_refl)
    as (H1 & _ & _ & _ & _ & H6).
  split; [exact H1 | exact (proj1 (H6 eq_refl))].
Defined.

(** ** Storing a transaction *)

(** C7 as specified does not hold: a [/pay] whose bill number is already
    in the dictionary ends normally, without any exception, and the record
    that was there is replaced. *)
Lemma duplicate_bill_number_overwrites :
  let env := env_status 1500 (always "UNPAID") in
  let w := world_of [("TRX1500000", T1)] in
  let p := generate_khqr_payment true (mkMessage 42 ["/pay"; "5000"]) in
  outcome_of env p w = Returned tt /\
  dict_get "TRX1500000" (active_transactions w) = Some T1 /\
  dict_get "TRX1500000" (active_transactions (world_after env p w))
    = Some (mkTransaction "md5:khqr:TRX1500000" 1800 42 501) /\
  assignments (events_of env p w)
    = [("TRX1500000", mkTransaction "md5:khqr:TRX1500000" 1800 42 501)].
Proof. vm_compute. repeat split. Qed.

(** C7, amended: storing a record under a bill number that is already in
    the dictionary raises nothing and replaces the record kept under that
    bill number; the keys and their order, and the records under the other
    keys, stay as they were. *)
Theorem store_transaction_replaces env (w : World) (bill_number : string)
  (data : Transaction) :
  transaction_lock w = false ->
  dict_contains bill_number (active_transactions w) = true ->
  let w' := world_after env (store_transaction bill_number data) w in
  outcome_of env (store_transaction bill_number data) w = Returned tt /\
  dict_get bill_number (active_transactions w') = Some data /\
  dict_keys (active_transactions w') = dict_keys (active_transactions w) /\
  (forall k, k <> bill_number ->
     dict_get k (active_transactions w') = dict_get k (active_transactions w)) /\
  transaction_lock w' = false.
Proof.
  intros Hl Hc. destruct w as [d l tr]. simpl in Hl, Hc. subst l.
  cbv zeta. unfold outcome_of, world_after, store_transaction, with_lock. cbn.
  repeat split.
  - apply dict_get_set_same.
  - now apply dict_keys_set_present.
  - intros k ne. now apply dict_get_set_other.
Qed.

Lemma store_transaction_replaces_witness :
  let env := env_status 1500 (always "UNPAID") in
  let w := world_of [("TRX1", T1); ("TRX2", T2)] in
  transaction_lock w = false /\
  dict_contains "TRX1" (active_transactions w) = true /\
  dict_get "TRX1" (active_transactions (world_after env (store_transaction "TRX1" T2) w))
    = Some T2.
Proof.
  cbv zeta. split; [reflexivity|]. split; [reflexivity|].
  exact (proj1 (proj2 (store_transaction_replaces (env_status 1500 (always "UNPAID"))
                         (world_of [("TRX1", T1); ("TRX2", T2)]) "TRX1" T2
                         eq_refl eq_refl))).
Defined.

(** ** Where the code departs from its specification *)

(** C2: a press of the confirm button on a record whose deadline (1300) is
    behind the clock (2000) does not give the expiry outcome.  The handler
    never reads the clock: it asks the payment network and, the answer
    being "PAID", sends the success message; no expiry message is sent.
    The polling pass of the same world expires the record without asking
    the payment network. *)
Theorem confirm_button_ignores_expiry :
  let env := env_status 2000 (always "PAID") in
  let w := world_of [("TRX1", T1)] in
  let pressed := events_of env (handle_confirm_payment (press "TRX1")) w in
  let polled := events_of env cleanup_pass w in
  (expiry_time T1 <? clock env (trace w))%Z = true /\
  count is_clock_read pressed = 0%nat /\
  oracle_queries pressed = ["f1"] /\
  count (is_paid_notice "TRX1") pressed = 1%nat /\
  count (is_expired_notice "TRX1") pressed = 0%nat /\
  oracle_queries polled = [] /\
  count (is_expired_notice "TRX1") polled = 1%nat.
Proof. vm_compute. repeat split. Qed.

(** C3: in a polling pass, a failing status check is not silent.  With the
    payment network down, the pass over one pending, unexpired record logs
    the failure and also sends the "check error" message to the chat of the
    record; the record itself stays as it was. *)
Theorem polling_failure_is_sent_to_user :
  let env := env_status 1500 network_down in
  let w := world_of [("TRX2", T2)] in
  let evs := events_of env cleanup_pass w in
  outcome_of env cleanup_pass w = Returned tt /\
  oracle_queries evs = ["f2"] /\
  count is_send_message evs = 1%nat /\
  count (is_check_error_notice (chat_id T2)) evs = 1%nat /\
  active_transactions (world_after env cleanup_pass w) = active_transactions w.
Proof. vm_compute. repeat split. Qed.

(** C4: when Telegram refuses the expiry message of the first record, the
    exception leaves the [for] loop and the [while] loop: the second record
    is never checked, nothing is removed, and a thread set to make two
    passes ends during the first one.  When the message is accepted, the
    same thread checks the second record in both passes. *)
Theorem failed_expiry_message_ends_polling :
  let w := world_of [("TRX1", T1); ("TRX2", T2)] in
  let bad := env_expiry_refused 1500 (always "UNPAID") in
  let good := env_status 1500 (always "UNPAID") in
  outcome_of bad (check_and_cleanup_transactions 2) w = Raised (ApiException 403) /\
  oracle_queries (events_of bad (check_and_cleanup_transactions 2) w) = [] /\
  count is_clock_read (events_of bad (check_and_cleanup_transactions 2) w) = 1%nat /\
  active_transactions (world_after bad (check_and_cleanup_transactions 2) w)
    = active_transactions w /\
  outcome_of good (check_and_cleanup_transactions 2) w = Returned tt /\
  oracle_queries (events_of good (check_and_cleanup_transactions 2) w) = ["f2"; "f2"] /\
  count is_clock_read (events_of good (check_and_cleanup_transactions 2) w) = 2%nat.
Proof. vm_compute. repeat split. Qed.

(** C5: the handler of the confirm button keeps [transaction_lock] while it
    calls Telegram.  For a bill number that is not tracked, the caption edit
    and the message are sent between the acquire and the release.  On the
    same world, a press for the tracked bill number, a polling pass and a
    [/pay] make no external call under the lock. *)
Theorem confirm_button_notifies_under_lock :
  let env := env_status 1000 (always "UNPAID") in
  let w := world_of [("TRX1", T1)] in
  map ev_action (events_of env (handle_confirm_payment (press "TRX9")) w)
    = [answer_callback_query "cb1" CheckingStatus;
       lock_acquire;
       tx_contains "TRX9";
       edit_message_caption 42 7 (NoLongerCheckable "caption") NoMarkup;
       send_message 42 (NotTracked "TRX9");
       lock_release] /\
  external_under_lock false (events_of env (handle_confirm_payment (press "TRX9")) w) = true /\
  external_under_lock false (events_of env (handle_confirm_payment (press "TRX1")) w) = false /\
  external_under_lock false (events_of env cleanup_pass w) = false /\
  external_under_lock false
    (events_of env (generate_khqr_payment true (mkMessage 42 ["/pay"; "5000"])) w) = false.
Proof. vm_compute. repeat split. Qed.

(** C1: racing checks notify twice.  The success message (lines 78-84) is
    sent before the lock is taken, and only the deletion (lines 87-89) is
    guarded by the test for the bill number.  The polling thread takes its
    snapshot, a button press for the same bill number is then handled to
    its end, and the polling thread goes on with its snapshot: both get
    "PAID" and both send the success message.  The record is removed
    once. *)
Lemma racing_checks_notify_twice :
  let '(w, pool) := interleave race_env race_schedule race_start in
  forallb finished pool = true /\
  count (is_paid_notice "TRX1") (trace w) = 2%nat /\
  count (is_removal "TRX1") (trace w) = 1%nat /\
  active_transactions w = [].
Proof. vm_compute. repeat split. Qed.

(** ** The polling pass *)

Lemma run_finally {A : Type} env (p : prog A) (q : prog unit) w :
  run env (finally p q) w =
  match run env p w with
  | (Returned a, w') => run env (q ;; Ret a) w'
  | (Raised e, w') => run env (q ;; Raise e) w'
  | (Blocked, w') => (Blocked, w')
  end.
Proof.
  revert w. induction p as [a|e|a k IH]; intros w; simpl; try reflexivity.
  destruct (perform env w a) as [[r w']|]; [apply IH | reflexivity].
Qed.

Lemma shrunk_refl d : shrunk d d.
Proof. split; [apply incl_refl | auto]. Qed.

Lemma shrunk_trans d1 d2 d3 : shrunk d1 d2 -> shrunk d2 d3 -> shrunk d1 d3.
Proof.
  intros [H1 H2] [H3 H4]. split; [|auto].
  intros x Hx. apply H1, H3, Hx.
Qed.

Lemma shrunk_del k d : shrunk d (dict_del k d).
Proof. split; [apply dict_del_incl | apply dict_del_NoDup]. Qed.

Lemma shrunk_absent k d d' :
  shrunk d d' -> dict_contains k d = false -> dict_contains k d' = false.
Proof.
  intros [Hincl _] H. destruct (dict_contains k d') eqn:E; [|reflexivity].
  apply dict_contains_In in E. unfold dict_keys in E.
  apply in_map_iff in E as [[k1 v1] [E1 E2]]. simpl in E1. subst k1.
  apply Hincl in E2.
  assert (In k (dict_keys d)) as Hin by (apply in_map_iff; now exists (k, v1)).
  apply dict_contains_In in Hin. congruence.
Qed.

(** What one status check does, whatever the environment answers: it asks
    the payment network once, returns, sends no expiry message, only ever
    deletes from the dictionary, and makes no external call under the
    lock. *)
Lemma check_payment_status_spec env bill md5 chat message d tr :
  exists confirmed evs d',
    run env (check_payment_status bill md5 chat message) (mkWorld d false tr)
      = (Returned confirmed, mkWorld d' false (tr ++ evs)) /\
    oracle_queries evs = [md5] /\
    (forall b, count (is_expired_notice b) evs = 0%nat) /\
    shrunk d d' /\
    external_under_lock false evs = false.
Proof.
  unfold check_payment_status, with_lock. run_all.
  all: do 3 eexists; (split; [reflexivity|]).
  all: cbn; repeat split; try reflexivity; auto using incl_refl, dict_del_incl, dict_del_NoDup.
Qed.

Section PollingPass.

Variable env : Env.
Variable now : Z.

(** Telegram accepts the expiry messages. *)
Hypothesis expiry_delivered :
  forall tr chat bill, external env tr (send_message chat (Expired bill)) = Ok tt.

Lemma process_item_spec item marked d tr :
  exists marked' evs d',
    run env (process_item now item marked) (mkWorld d false tr)
      = (Returned marked', mkWorld d' false (tr ++ evs)) /\
    oracle_queries evs
      = (if unexpired now item then [md5_hash (snd item)] else []) /\
    (forall b, count (is_expired_notice b) evs
               = if expired_as now b item then 1%nat else 0%nat) /\
    shrunk d d' /\
    incl marked marked' /\
    (unexpired now item = false -> In (fst item) marked').
Proof.
  destruct item as [bill data].
  unfold process_item, unexpired, expired_as, unexpired. simpl fst; simpl snd.
  destruct (expiry_time data <? now)%Z eqn:E; simpl negb.
  - run_all.
    all: try match goal with
             | H : external _ _ (send_message _ (Expired _)) = Err _ |- _ =>
                 rewrite expiry_delivered in H; discriminate
             end.
    all: do 3 eexists; (split; [reflexivity|]).
    all: cbn; repeat split; auto using shrunk_refl, incl_refl, dict_del_NoDup.
    all: try (intros b; unfold count; cbn; destruct (String.eqb bill b); reflexivity).
    all: try (apply incl_appl, incl_refl).
    all: try (intros _; apply in_or_app; right; now left).
  - rewrite run_bind.
    destruct (check_payment_status_spec env bill (md5_hash data) (chat_id data)
                (message_id data) d tr) as (r & evs & d' & Hrun & Hq & Hx & Hs & _).
    rewrite Hrun. cbn.
    do 3 eexists. split; [reflexivity|].
    repeat split; try apply Hs; auto.
    + destruct r; [apply incl_appl|]; apply incl_refl.
    + discriminate.
Qed.

Lemma process_items_spec items marked d tr :
  exists marked' evs d',
    run env (process_items now items marked) (mkWorld d false tr)
      = (Returned marked', mkWorld d' false (tr ++ evs)) /\
    oracle_queries evs
      = map (fun item => md5_hash (snd item)) (filter (unexpired now) items) /\
    (forall b, count (is_expired_notice b) evs
               = List.length (filter (expired_as now b) items)) /\
    shrunk d d' /\
    incl marked marked' /\
    (forall item, In item items -> unexpired now item = false ->
                  In (fst item) marked').
Proof.
  revert marked d tr. induction items as [|item items IH]; intros marked d tr.
  - exists marked, [], d. cbn. rewrite app_nil_r.
    repeat split; auto using incl_refl; try apply shrunk_refl. intros _ [].
  - cbn [process_items]. rewrite run_bind.
    destruct (process_item_spec item marked d tr)
      as (m1 & evs1 & d1 & Hrun1 & Hq1 & Hx1 & Hs1 & Hm1 & He1).
    rewrite Hrun1.
    destruct (IH m1 d1 (tr ++ evs1))
      as (m2 & evs2 & d2 & Hrun2 & Hq2 & Hx2 & Hs2 & Hm2 & He2).
    rewrite Hrun2. exists m2, (evs1 ++ evs2), d2.
    split; [now rewrite app_assoc|].
    split; [|split; [|split; [|split]]].
    + rewrite oracle_queries_app, Hq1, Hq2. cbn [filter].
      destruct (unexpired now item); reflexivity.
    + intros b. rewrite count_app, Hx1, Hx2. cbn [filter].
      destruct (expired_as now b item); reflexivity.
    + eapply shrunk_trans; eassumption.
    + intros x Hx. apply Hm2, Hm1, Hx.
    + intros it [<-|Hin] Hexp; [apply Hm2, He1, Hexp | now apply He2].
Qed.

Lemma remove_marked_spec keys d l tr :
  exists evs d',
    run env (remove_marked keys) (mkWorld d l tr)
      = (Returned tt, mkWorld d' l (tr ++ evs)) /\
    oracle_queries evs = [] /\
    (forall b, count (is_expired_notice b) evs = 0%nat) /\
    shrunk d d' /\
    (NoDup (dict_keys d) -> forall k, In k keys -> dict_contains k d' = false).
Proof.
  revert d tr. induction keys as [|key keys IH]; intros d tr.
  - exists [], d. cbn. rewrite app_nil_r.
    repeat split; auto using incl_refl. intros _ k [].
  - cbn [remove_marked]. rewrite run_bind. cbn.
    destruct (dict_contains key d) eqn:E.
    + rewrite run_bind. cbn. unfold perform, answer. cbn. rewrite E. cbn.
      match goal with |- context [run env (remove_marked keys) (mkWorld ?d1 l ?t1)] =>
        destruct (IH d1 t1) as (evs & d' & Hrun & Hq & Hx & Hs & Hk)
      end.
      rewrite Hrun. repeat rewrite <- app_assoc. cbn.
      do 2 eexists. split; [reflexivity|].
      split; [exact Hq|]. split; [exact Hx|].
      split; [eapply shrunk_trans; [apply shrunk_del | exact Hs]|].
      intros Hnd k [<-|Hin].
      * eapply shrunk_absent; [exact Hs|]. now apply dict_contains_del_same.
      * apply Hk; [now apply dict_del_NoDup | exact Hin].
    + rewrite run_bind. cbn.
      match goal with |- context [run env (remove_marked keys) (mkWorld ?d1 l ?t1)] =>
        destruct (IH d1 t1) as (evs & d' & Hrun & Hq & Hx & Hs & Hk)
      end.
      rewrite Hrun. repeat rewrite <- app_assoc. cbn.
      do 2 eexists. split; [reflexivity|].
      split; [exact Hq|]. split; [exact Hx|]. split; [exact Hs|].
      intros Hnd k [<-|Hin]; [eapply shrunk_absent; eassumption | now apply Hk].
Qed.

End PollingPass.

Lemma expired_as_absent now bill d :
  ~ In bill (dict_keys d) -> filter (expired_as now bill) d = [].
Proof.
  induction d as [|[k v] d IH]; simpl; intros H; [reflexivity|].
  unfold expired_as at 1. simpl fst.
  destruct (String.eqb_spec k bill) as [->|ne].
  - exfalso. apply H. now left.
  - rewrite andb_false_r. apply IH. intros Hin. apply H. now right.
Qed.

Lemma expired_as_once now bill data d :
  NoDup (dict_keys d) -> In (bill, data) d ->
  List.length (filter (expired_as now bill) d)
    = if unexpired now (bill, data) then 0%nat else 1%nat.
Proof.
  induction d as [|[k v] d IH]; simpl; intros Hnd Hin; [contradiction|].
  inversion Hnd as [|? ? Hnotin Hnd']; subst.
  destruct Hin as [Heq|Hin].
  - injection Heq as -> ->.
    rewrite (expired_as_absent now bill d Hnotin).
    unfold expired_as. simpl fst. rewrite String.eqb_refl, andb_true_r.
    destruct (unexpired now (bill, data)); reflexivity.
  - assert (k <> bill) as ne.
    { intros ->. apply Hnotin. unfold dict_keys. apply in_map_iff. now exists (bill, data). }
    unfold expired_as at 1. simpl fst.
    destruct (String.eqb_spec k bill); [contradiction|].
    rewrite andb_false_r. now apply IH.
Qed.

(** C8: not in every pass.  The expiry message (lines 138-141) is sent
    outside any [try].  The dictionary holds one record, whose deadline
    (1300) is behind the clock (1500).  When Telegram refuses the expiry
    message, the pass raises at that call: no expiry message is delivered,
    the removal loop of lines 152-158 is not reached and the record stays
    in the dictionary; a thread set to make three passes ends there, so no
    later pass removes the record either.  When Telegram accepts the
    message, the same pass delivers it once and removes the record.  In
    neither run is the payment network asked. *)
Theorem expired_record_kept_when_message_refused :
  let w := world_of [("TRX1", T1)] in
  let bad := env_expiry_refused 1500 (always "PAID") in
  let good := env_status 1500 (always "PAID") in
  (expiry_time T1 <? clock bad (trace w))%Z = true /\
  outcome_of bad cleanup_pass w = Raised (ApiException 403) /\
  map ev_action (events_of bad cleanup_pass w)
    = [time_time; lock_acquire; tx_items; lock_release;
       delete_message 42 7; send_message 42 (Expired "TRX1")] /\
  count (is_expired_notice "TRX1") (events_of bad cleanup_pass w) = 0%nat /\
  count (is_removal "TRX1") (events_of bad cleanup_pass w) = 0%nat /\
  active_transactions (world_after bad cleanup_pass w) = [("TRX1", T1)] /\
  oracle_queries (events_of bad cleanup_pass w) = [] /\
  outcome_of bad (check_and_cleanup_transactions 3) w = Raised (ApiException 403) /\
  active_transactions (world_after bad (check_and_cleanup_transactions 3) w)
    = [("TRX1", T1)] /\
  outcome_of good cleanup_pass w = Returned tt /\
  count (is_expired_notice "TRX1") (events_of good cleanup_pass w) = 1%nat /\
  count (is_removal "TRX1") (events_of good cleanup_pass w) = 1%nat /\
  active_transactions (world_after good cleanup_pass w) = [] /\
  oracle_queries (events_of good cleanup_pass w) = [].
Proof. vm_compute. repeat split. Qed.

(** X24: a polling pass in which Telegram accepts the expiry messages,
    started with the lock free on a dictionary without duplicate keys: a
    record whose deadline is behind the clock read by the pass gets exactly
    one expiry message and is no longer in the dictionary when the pass
    ends; the payment network is asked about the records that are not
    expired, one call each in the order of the snapshot, and the expired
    record is not among them. *)
Theorem polling_pass_expires env (w : World) (bill : string) (data : Transaction) :
  transaction_lock w = false ->
  NoDup (dict_keys (active_transactions w)) ->
  In (bill, data) (active_transactions w) ->
  (expiry_time data < clock env (trace w))%Z ->
  (forall tr chat b, external env tr (send_message chat (Expired b)) = Ok tt) ->
  outcome_of env cleanup_pass w = Returned tt /\
  count (is_expired_notice bill) (events_of env cleanup_pass w) = 1%nat /\
  dict_contains bill (active_transactions (world_after env cleanup_pass w)) = false /\
  oracle_queries (events_of env cleanup_pass w)
    = map (fun item => md5_hash (snd item))
          (filter (unexpired (clock env (trace w))) (active_transactions w)) /\
  unexpired (clock env (trace w)) (bill, data) = false.
Proof.
  intros Hl Hnd Hin Hexp Hsend. destruct w as [d l tr]. simpl in *. subst l.
  set (now := clock env tr) in *.
  assert (Hun : unexpired now (bill, data) = false).
  { unfold unexpired. simpl. apply negb_false_iff, Z.ltb_lt, Hexp. }
  destruct (process_items_spec env now Hsend d [] d
              ((tr ++ [Ev time_time (Ok now)]) ++
               [Ev lock_acquire (Ok tt); Ev tx_items (Ok d); Ev lock_release (Ok tt)]))
    as (marked & evs1 & d1 & Hrun1 & Hq1 & Hx1 & Hs1 & _ & Hm1).
  destruct (remove_marked_spec env marked d1 true
              ((((tr ++ [Ev time_time (Ok now)]) ++
                 [Ev lock_acquire (Ok tt); Ev tx_items (Ok d); Ev lock_release (Ok tt)])
                ++ evs1) ++ [Ev lock_acquire (Ok tt)]))
    as (evs2 & d2 & Hrun2 & Hq2 & Hx2 & Hs2 & Hk2).
  assert (Hrun : run env cleanup_pass (mkWorld d false tr)
            = (Returned tt,
               mkWorld d2 false
                 (tr ++ [Ev time_time (Ok now);
                         Ev lock_acquire (Ok tt); Ev tx_items (Ok d);
                         Ev lock_release (Ok tt)]
                     ++ evs1 ++ [Ev lock_acquire (Ok tt)] ++ evs2
                     ++ [Ev lock_release (Ok tt);
                         Ev (time_sleep CHECK_INTERVAL_SECONDS) (Ok tt)]))).
  { unfold cleanup_pass. rewrite run_bind. cbn. fold now.
    repeat rewrite <- app_assoc in *. cbn in *.
    rewrite run_bind, Hrun1. cbn.
    repeat rewrite <- app_assoc in *. cbn in *.
    rewrite run_bind, run_finally, Hrun2. cbn.
    repeat (rewrite <- app_assoc; cbn). reflexivity. }
  unfold outcome_of, events_of, world_after. rewrite Hrun. simpl fst; simpl snd.
  match type of Hrun with
  | _ = (_, mkWorld _ _ (_ ++ ?l)) => rewrite (since_app _ _ l) by reflexivity
  end.
  split; [reflexivity|]. split; [|split; [|split; [|exact Hun]]].
  - repeat rewrite count_app. rewrite Hx1, Hx2.
    rewrite (expired_as_once now bill data d Hnd Hin), Hun. reflexivity.
  - cbn. apply Hk2.
    + now apply Hs1.
    + apply (Hm1 (bill, data) Hin Hun).
  - cbn. rewrite oracle_queries_app. cbn. rewrite oracle_queries_app, Hq1, Hq2.
    cbn. now rewrite app_nil_r.
Qed.

Lemma polling_pass_expires_witness :
  let env := env_status 1500 (always "UNPAID") in
  let w := world_of [("TRX1", T1); ("TRX2", T2)] in
  (expiry_time T1 < clock env (trace w))%Z /\
  count (is_expired_notice "TRX1") (events_of env cleanup_pass w) = 1%nat /\
  dict_contains "TRX1" (active_transactions (world_after env cleanup_pass w)) = false.
Proof.
  cbv zeta. split; [reflexivity|].
  assert (Hnd : NoDup (dict_keys (active_transactions
                                    (world_of [("TRX1", T1); ("TRX2", T2)])))).
  { simpl. constructor.
    - simpl. intros [H|[]]. discriminate H.
    - constructor; [intros [] | constructor]. }
  destruct (polling_pass_expires (env_status 1500 (always "UNPAID"))
              (world_of [("TRX1", T1); ("TRX2", T2)]) "TRX1" T1
              eq_refl Hnd (or_introl eq_refl) eq_refl (fun _ _ _ => eq_refl))
    as (_ & H1 & H2 & _).
  split; assumption.
Defined.

(** ** Deadlines *)

Lemma never_assigns_bind {A B : Type} (p : prog A) (f : A -> prog B) :
  never_assigns p -> (forall a, never_assigns (f a)) -> never_assigns (bind p f).
Proof.
  induction p as [a|e|a k IH]; simpl; intros Hp Hf; auto.
  destruct Hp as [Ha Hk]. split; [exact Ha|]. intros r. apply IH; auto.
Qed.

Lemma never_assigns_try_catch {A : Type} (p : prog A) (h : exn -> prog A) :
  never_assigns p -> (forall e, never_assigns (h e)) -> never_assigns (try_catch p h).
Proof.
  induction p as [a|e|a k IH]; simpl; intros Hp Hh; auto.
  destruct Hp as [Ha Hk]. split; [exact Ha|]. intros r. apply IH; auto.
Qed.

Lemma never_assigns_finally {A : Type} (p : prog A) (q : prog unit) :
  never_assigns p -> never_assigns q -> never_assigns (finally p q).
Proof.
  induction p as [a|e|a k IH]; simpl; intros Hp Hq.
  - apply never_assigns_bind; simpl; auto.
  - apply never_assigns_bind; simpl; auto.
  - destruct Hp as [Ha Hk]. split; [exact Ha|]. intros r. apply IH; auto.
Qed.

Lemma never_assigns_call (a : action) :
  match a with tx_set _ _ => False | _ => True end -> never_assigns (call a).
Proof. intros H. simpl. split; [exact H|]. intros [x|e]; exact I. Qed.

Ltac never_assigns_tac :=
  repeat match goal with
         | |- never_assigns (bind _ _) => apply never_assigns_bind
         | |- never_assigns (try_catch _ _) => apply never_assigns_try_catch
         | |- never_assigns (finally _ _) => apply never_assigns_finally
         | |- never_assigns (with_lock _) => unfold with_lock
         | |- never_assigns (call ?a) => exact (never_assigns_call a I)
         | |- never_assigns (Act _ _) => split; [exact I|]
         | |- never_assigns (Ret _) => exact I
         | |- never_assigns (Raise _) => exact I
         | |- never_assigns (if ?b then _ else _) => destruct b
         | |- never_assigns (match ?x with _ => _ end) => destruct x
         | |- forall _, _ => intro; cbv beta
         end.

Lemma check_payment_status_never_assigns bill md5 chat message :
  never_assigns (check_payment_status bill md5 chat message).
Proof. unfold check_payment_status. never_assigns_tac. Qed.

Lemma process_items_never_assigns now items marked :
  never_assigns (process_items now items marked).
Proof.
  revert marked.
  induction items as [|[bill data] items IH]; intros marked; cbn [process_items].
  - exact I.
  - apply never_assigns_bind; [|intros a; apply IH].
    unfold process_item. destruct (expiry_time data <? now)%Z.
    + never_assigns_tac.
    + apply never_assigns_bind; [apply check_payment_status_never_assigns|].
      intros a. exact I.
Qed.

Lemma remove_marked_never_assigns keys : never_assigns (remove_marked keys).
Proof.
  induction keys as [|key keys IH]; cbn [remove_marked]; [exact I|].
  apply never_assigns_bind; [never_assigns_tac|]. intros present.
  apply never_assigns_bind; [|intros _; exact IH].
  destruct present; never_assigns_tac.
Qed.

Lemma cleanup_pass_never_assigns : never_assigns cleanup_pass.
Proof.
  unfold cleanup_pass.
  apply never_assigns_bind; [never_assigns_tac|]. intros now.
  apply never_assigns_bind; [never_assigns_tac|]. intros items.
  apply never_assigns_bind; [apply process_items_never_assigns|]. intros marked.
  apply never_assigns_bind; [|never_assigns_tac].
  unfold with_lock. apply never_assigns_bind; [never_assigns_tac|]. intros _.
  apply never_assigns_finally; [apply remove_marked_never_assigns | never_assigns_tac].
Qed.

Lemma check_and_cleanup_never_assigns ticks :
  never_assigns (check_and_cleanup_transactions ticks).
Proof.
  induction ticks as [|n IH]; cbn [check_and_cleanup_transactions]; [exact I|].
  apply never_assigns_bind; [apply cleanup_pass_never_assigns | intros _; exact IH].
Qed.

Lemma handle_confirm_payment_never_assigns c :
  never_assigns (handle_confirm_payment c).
Proof.
  unfold handle_confirm_payment.
  apply never_assigns_bind; [never_assigns_tac|]. intros _.
  apply never_assigns_bind; [never_assigns_tac|]. intros [[[md5 chat] message]|].
  - apply never_assigns_bind; [apply check_payment_status_never_assigns|].
    never_assigns_tac.
  - exact I.
Qed.

(** An action other than an assignment leaves the dictionary as it was or
    deletes from it. *)
Lemma perform_shrunk env w a r w' :
  match a with tx_set _ _ => False | _ => True end ->
  perform env w a = Some (r, w') ->
  shrunk (active_transactions w) (active_transactions w').
Proof.
  unfold perform, answer. intros Ha H.
  destruct a; try contradiction; simpl in H;
    repeat match type of H with
           | context [if ?b then _ else _] => destruct b
           end;
    inversion H; subst; simpl; auto using shrunk_refl, shrunk_del.
Qed.







(** ** Racing status checks *)

Lemma set_nth_Forall {X : Type} (P : X -> Prop) i x l :
  Forall P l -> P x -> Forall P (set_nth i x l).
Proof.
  revert i. induction l as [|y l IH]; intros i Hl Hx; destruct i; simpl; auto.
  - inversion Hl; subst. constructor; auto.
  - inversion Hl; subst. constructor; auto.
Qed.

Lemma nth_error_Forall {X : Type} (P : X -> Prop) i x l :
  Forall P l -> nth_error l i = Some x -> P x.
Proof.
  intros Hl Hi. rewrite Forall_forall in Hl. apply Hl.
  eapply nth_error_In; eassumption.
Qed.

Lemma owes_step {A : Type} bill a (k : reply (result a) -> prog A) r n :
  owes bill (Act a k) n ->
  paid_and_delivered (Ev a r) = true ->
  exists n',
    n = ((if is_paid_notice bill (Ev a r) then 1 else 0) + n')%nat /\
    owes bill (k r) n'.
Proof.
  intros H Hr. specialize (H r Hr).
  destruct (is_paid_notice bill (Ev a r)).
  - destruct n as [|n']; [contradiction|]. exists n'. split; [reflexivity | exact H].
  - exists n. split; [reflexivity | exact H].
Qed.

(** When thread [i] takes a step, the total owed by the pool drops by one
    if the step delivers the success message and stays the same if not. *)
Lemma owes_pool_step {A : Type} bill (pool : list (prog A)) ns i a k r :
  Forall2 (owes bill) pool ns ->
  nth_error pool i = Some (Act a k) ->
  paid_and_delivered (Ev a r) = true ->
  exists ns',
    Forall2 (owes bill) (set_nth i (k r) pool) ns' /\
    list_sum ns = ((if is_paid_notice bill (Ev a r) then 1 else 0) + list_sum ns')%nat.
Proof.
  intros HF. revert i. induction HF as [|q n pool ns Hq HF IH]; intros i Hi Hr.
  - destruct i; discriminate.
  - destruct i as [|i]; simpl in Hi.
    + injection Hi as ->. destruct (owes_step bill a k r n Hq Hr) as (n' & -> & Hn').
      exists (n' :: ns). simpl. split; [constructor; assumption | lia].
    + destruct (IH i Hi Hr) as (ns' & HF' & Hsum).
      exists (n :: ns'). simpl. split; [constructor; assumption | lia].
Qed.

Section Race.

Variable env : Env.
Variable bill : string.

(** The payment network answers "PAID"; Telegram delivers the success
    message. *)
Hypothesis paid : forall tr md5, external env tr (check_payment md5) = Ok "PAID".
Hypothesis delivered :
  forall tr chat b status,
    external env tr (send_message chat (PaymentCompleted b status)) = Ok tt.

Lemma perform_plausible w a r w' :
  perform env w a = Some (r, w') -> paid_and_delivered (Ev a r) = true.
Proof.
  unfold perform, answer. intros H.
  destruct a; simpl in H;
    repeat match type of H with
           | context [if ?b then _ else _] => destruct b
           end;
    try discriminate; injection H as <- <-; try reflexivity.
  - unfold paid_and_delivered. simpl. now rewrite paid.
  - destruct t; try reflexivity.
    unfold paid_and_delivered, ev_ok. simpl. now rewrite delivered.
Qed.

Lemma perform_clears w a r w' :
  NoDup (dict_keys (active_transactions w)) ->
  perform env w a = Some (r, w') ->
  clears bill (Ev a r) = true ->
  dict_contains bill (active_transactions w') = false.
Proof.
  unfold perform, answer. intros Hnd H Hc.
  destruct a; simpl in Hc; try discriminate; simpl in H.
  - injection H as <- <-. simpl.
    apply andb_prop in Hc as [Hk Hp]. apply String.eqb_eq in Hk. subst k.
    now apply negb_true_iff in Hp.
  - apply String.eqb_eq in Hc. subst k.
    destruct (dict_contains bill (active_transactions w)) eqn:E;
      injection H as <- <-; simpl; [now apply dict_contains_del_same | exact E].
Qed.

Lemma perform_paid_count w a r w' :
  perform env w a = Some (r, w') ->
  count (is_paid_notice bill) (trace w')
    = (count (is_paid_notice bill) (trace w)
       + (if is_paid_notice bill (Ev a r) then 1 else 0))%nat.
Proof.
  intros H. rewrite (perform_trace _ _ _ _ _ H), count_app.
  unfold count. cbn [filter].
  destruct (is_paid_notice bill (Ev a r)); reflexivity.
Qed.

Lemma perform_removed w a r w' :
  NoDup (dict_keys (active_transactions w)) ->
  match a with tx_set _ _ => False | _ => True end ->
  perform env w a = Some (r, w') ->
  (count (is_removal bill) (trace w') + present_count bill w')%nat
    = (count (is_removal bill) (trace w) + present_count bill w)%nat.
Proof.
  intros Hnd Ha H. rewrite (perform_trace _ _ _ _ _ H), count_app.
  revert H. unfold perform, answer, present_count, count at 2.
  destruct a; try contradiction; simpl;
    repeat match goal with
           | |- context [if transaction_lock w then _ else _] =>
               destruct (transaction_lock w)
           end;
    try discriminate;
    try (intros H; injection H as <- <-; simpl; lia).
  destruct (dict_contains k (active_transactions w)) eqn:E;
    intros H; injection H as <- <-; simpl.
  - unfold is_removal, ev_ok. cbn.
    destruct (String.eqb_spec k bill) as [->|ne]; cbn.
    + rewrite E, dict_contains_del_same by assumption. lia.
    + rewrite dict_contains_del_other by congruence. lia.
  - unfold is_removal, ev_ok. cbn. rewrite andb_false_r. cbn. lia.
Qed.

Lemma thread_step_invariant {A : Type} notices removals i w (pool : list (prog A)) w' pool' :
  race_invariant bill notices removals w pool ->
  thread_step env i (w, pool) = Some (w', pool') ->
  race_invariant bill notices removals w' pool'.
Proof.
  intros [Hnd Hna Hcl (ns & Hns & Hsum) Hrem]. unfold thread_step.
  destruct (nth_error pool i) as [[x|e|a k]|] eqn:Hi; try discriminate.
  destruct (perform env w a) as [[r w1]|] eqn:Hp; [|discriminate].
  intros H. injection H as <- <-.
  pose proof (nth_error_Forall _ _ _ _ Hna Hi) as [Ha Hk].
  pose proof (perform_shrunk _ _ _ _ _ Ha Hp) as Hsh.
  pose proof (perform_plausible _ _ _ _ Hp) as Hpl.
  constructor.
  - now apply Hsh.
  - apply set_nth_Forall; [exact Hna | apply Hk].
  - apply set_nth_Forall.
    + eapply Forall_impl; [|exact Hcl]. intros p [Hp0|Hp0]; [left | now right].
      eapply shrunk_absent; eassumption.
    + destruct (nth_error_Forall _ _ _ _ Hcl Hi) as [H0|H0].
      * left. eapply shrunk_absent; eassumption.
      * destruct (H0 r Hpl) as [Hc|Hc]; [left | now right].
        eapply perform_clears; eassumption.
  - destruct (owes_pool_step bill pool ns i a k r Hns Hi Hpl) as (ns' & Hns' & Hsum').
    exists ns'. split; [exact Hns'|].
    rewrite (perform_paid_count _ _ _ _ Hp). lia.
  - rewrite (perform_removed _ _ _ _ Hnd Ha Hp). exact Hrem.
Qed.

Lemma interleave_invariant {A : Type} notices removals schedule w (pool : list (prog A)) :
  race_invariant bill notices removals w pool ->
  race_invariant bill notices removals
    (fst (interleave env schedule (w, pool)))
    (snd (interleave env schedule (w, pool))).
Proof.
  revert w pool. induction schedule as [|i schedule IH]; intros w pool Hinv.
  - exact Hinv.
  - cbn [interleave].
    destruct (thread_step env i (w, pool)) as [[w' pool']|] eqn:E.
    + apply IH. eapply thread_step_invariant; eassumption.
    + apply IH, Hinv.
Qed.

Lemma interleave_trace {A : Type} schedule w (pool : list (prog A)) :
  exists evs, trace (fst (interleave env schedule (w, pool))) = trace w ++ evs.
Proof.
  revert w pool. induction schedule as [|i schedule IH]; intros w pool.
  - exists []. simpl. now rewrite app_nil_r.
  - cbn [interleave].
    destruct (thread_step env i (w, pool)) as [[w' pool']|] eqn:E; [|apply IH].
    destruct (IH w' pool') as [evs Hevs].
    unfold thread_step in E.
    destruct (nth_error pool i) as [[x|e|a k]|]; try discriminate.
    destruct (perform env w a) as [[r w1]|] eqn:Hp; [|discriminate].
    injection E as <- <-.
    exists (Ev a r :: evs).
    rewrite Hevs, (perform_trace _ _ _ _ _ Hp), <- app_assoc. reflexivity.
Qed.

End Race.

(** Going through a program answer by answer. *)
Ltac answer_cases :=
  match goal with
  | |- false = true \/ _ => right
  | |- true = true \/ _ => left; reflexivity
  | |- forall r : reply _, _ -> _ =>
      let r := fresh "r" in
      let H := fresh "H" in
      intros r H; destruct r as [?x|?e]; cbn in H; try discriminate H
  | |- forall r : reply _, _ =>
      let r := fresh "r" in intros r; destruct r as [?x|?e]
  | H : String.eqb ?s "PAID" = true |- _ => apply String.eqb_eq in H; subst s
  | |- context [truthy ?m] => destruct (truthy m)
  | |- context [String.eqb ?b ?b] => rewrite String.eqb_refl
  | |- context [String.eqb ?s "PAID"] => destruct (String.eqb s "PAID")
  | |- context [if ?x then _ else _] => is_var x; destruct x
  end.

Lemma check_payment_status_owes bill md5 chat message :
  owes bill (check_payment_status bill md5 chat message) 1.
Proof.
  unfold check_payment_status, with_lock. cbn.
  repeat (answer_cases; cbn). all: reflexivity.
Qed.

Lemma check_payment_status_will_clear bill md5 chat message :
  will_clear bill (check_payment_status bill md5 chat message).
Proof.
  unfold check_payment_status, with_lock. cbn.
  repeat (answer_cases; cbn).
Qed.

Lemma check_payment_status_ends bill md5 chat message :
  ends_within 12 (check_payment_status bill md5 chat message).
Proof.
  unfold check_payment_status, with_lock. cbn.
  repeat (answer_cases; cbn). all: exact I.
Qed.

(** *** One thread after the other *)

Lemma interleave_app {A : Type} env s1 s2 (cfg : World * list (prog A)) :
  interleave env (s1 ++ s2) cfg = interleave env s2 (interleave env s1 cfg).
Proof.
  revert cfg. induction s1 as [|i s1 IH]; intros cfg; simpl; [reflexivity|].
  destruct (thread_step env i cfg); apply IH.
Qed.

Lemma set_nth_same {X : Type} i (x : X) l :
  nth_error l i = Some x -> set_nth i x l = l.
Proof.
  revert i. induction l as [|y l IH]; intros i H; destruct i; simpl in *; try discriminate.
  - now injection H as ->.
  - now rewrite IH.
Qed.

Lemma set_nth_twice {X : Type} i (x y : X) l :
  set_nth i x (set_nth i y l) = set_nth i x l.
Proof.
  revert i. induction l as [|z l IH]; intros i; destruct i; simpl; try reflexivity.
  now rewrite IH.
Qed.

Lemma nth_error_set_nth {X : Type} i (x y : X) l :
  nth_error l i = Some y -> nth_error (set_nth i x l) i = Some x.
Proof.
  revert i. induction l as [|z l IH]; intros i H; destruct i; simpl in *; try discriminate.
  - reflexivity.
  - now apply IH.
Qed.

Lemma set_nth_middle {X : Type} (x y : X) l1 l2 :
  set_nth (List.length l1) x (l1 ++ y :: l2) = (l1 ++ [x]) ++ l2.
Proof. induction l1 as [|z l1 IH]; simpl; [reflexivity | now rewrite IH]. Qed.

(** Scheduled alone for long enough, a thread that is never blocked runs
    to its end, exactly as [run] does. *)
Lemma interleave_solo {A : Type} env steps : forall (p : prog A) w pool i,
  nth_error pool i = Some p ->
  ends_within steps p ->
  outcome_of env p w <> Blocked ->
  exists p',
    finished p' = true /\
    interleave env (repeat i steps) (w, pool) = (world_after env p w, set_nth i p' pool).
Proof.
  unfold outcome_of, world_after.
  induction steps as [|steps IH]; intros p w pool i Hi Hends Hrun.
  - destruct p as [a|e|a k]; simpl in Hends; try contradiction;
      eexists; (split; [|simpl; rewrite (set_nth_same _ _ _ Hi); reflexivity]);
      reflexivity.
  - destruct p as [a|e|a k].
    + destruct (IH (Ret a) w pool i Hi I Hrun) as (p' & Hp' & Hrest).
      exists p'. split; [exact Hp'|].
      cbn [repeat interleave]. unfold thread_step. rewrite Hi. exact Hrest.
    + destruct (IH (Raise e) w pool i Hi I Hrun) as (p' & Hp' & Hrest).
      exists p'. split; [exact Hp'|].
      cbn [repeat interleave]. unfold thread_step. rewrite Hi. exact Hrest.
    + simpl in Hends, Hrun. cbn [repeat interleave]. unfold thread_step at 1.
      rewrite Hi. simpl run.
      destruct (perform env w a) as [[r w1]|] eqn:Hp; [|now elim Hrun].
      destruct (IH (k r) w1 (set_nth i (k r) pool) i
                  (nth_error_set_nth _ _ _ _ Hi) (Hends r) Hrun)
        as (p' & Hp' & Hrest).
      exists p'. split; [exact Hp'|].
      rewrite Hrest, set_nth_twice. reflexivity.
Qed.

Lemma one_by_one_finishes env bill : forall (args : list (string * Z * Z))
  (done : list (prog bool)) w,
  forallb finished done = true ->
  transaction_lock w = false ->
  forallb finished
    (snd (interleave env
            (flat_map (fun i => repeat i 12) (seq (List.length done) (List.length args)))
            (w, done ++ racing_checks bill args))) = true.
Proof.
  induction args as [|[[md5 chat] message] args IH]; intros done w Hdone Hl.
  - simpl. now rewrite app_nil_r.
  - cbn [List.length seq flat_map racing_checks map]. rewrite interleave_app.
    destruct w as [d l tr]. simpl in Hl. subst l.
    destruct (check_payment_status_spec env bill md5 chat message d tr)
      as (r & evs & d' & Hrun & _).
    destruct (interleave_solo env 12 (check_payment_status bill md5 chat message)
                (mkWorld d false tr)
                (done ++ check_payment_status bill md5 chat message
                      :: racing_checks bill args)
                (List.length done)) as (p' & Hp' & Hsolo).
    + rewrite nth_error_app2, Nat.sub_diag by lia. reflexivity.
    + apply check_payment_status_ends.
    + unfold outcome_of. rewrite Hrun. discriminate.
    + fold (racing_checks bill args). rewrite Hsolo, set_nth_middle.
      unfold world_after. rewrite Hrun. simpl snd.
      replace (S (List.length done)) with (List.length (done ++ [p']))
        by (rewrite length_app; simpl; lia).
      apply IH; [|reflexivity].
      rewrite forallb_app, Hdone. simpl. now rewrite Hp'.
Qed.

Lemma owes_finished {A : Type} bill (pool : list (prog A)) ns :
  Forall2 (owes bill) pool ns -> forallb finished pool = true -> list_sum ns = 0%nat.
Proof.
  induction 1 as [|p n pool ns Hp HF IH]; simpl; intros Hfin; [reflexivity|].
  apply andb_prop in Hfin as [Hp' Hrest].
  destruct p as [a|e|a k]; simpl in Hp, Hp'; try discriminate; subst n;
    now rewrite IH.
Qed.

Lemma owes_racing_checks bill args :
  Forall2 (owes bill) (racing_checks bill args) (repeat 1%nat (List.length args)).
Proof.
  induction args as [|[[md5 chat] message] args IH]; simpl; constructor.
  - apply check_payment_status_owes.
  - exact IH.
Qed.

Lemma list_sum_repeat_1 n : list_sum (repeat 1%nat n) = n.
Proof. induction n as [|n IH]; simpl; [reflexivity | now rewrite IH]. Qed.

Lemma interleave_length {A : Type} env schedule w (pool : list (prog A)) :
  List.length (snd (interleave env schedule (w, pool))) = List.length pool.
Proof.
  revert w pool. induction schedule as [|i schedule IH]; intros w pool; [reflexivity|].
  cbn [interleave].
  destruct (thread_step env i (w, pool)) as [[w' pool']|] eqn:E; [|apply IH].
  rewrite IH. unfold thread_step in E.
  destruct (nth_error pool i) as [[x|e|a k]|]; try discriminate.
  destruct (perform env w a) as [[r w1]|]; [|discriminate].
  injection E as <- <-. clear. revert i.
  induction pool as [|q pool IHp]; intros i; destruct i; simpl; auto.
Qed.

(** X25: when status checks of one bill number race, the payment network
    answering "PAID" and Telegram delivering the success message, every
    check sends its own success message, so there are as many messages as
    checks; the record is removed from the dictionary once, if it was
    there, and is not in it when the checks have ended.  This holds for
    every interleaving of the checks, and an interleaving that lets all of
    them end exists. *)
Theorem racing_checks_notify_each env (bill : string) (args : list (string * Z * Z))
  (w0 : World) :
  (forall tr md5, external env tr (check_payment md5) = Ok "PAID") ->
  (forall tr chat b status,
     external env tr (send_message chat (PaymentCompleted b status)) = Ok tt) ->
  NoDup (dict_keys (active_transactions w0)) ->
  transaction_lock w0 = false ->
  args <> [] ->
  (exists schedule,
     forallb finished
       (snd (interleave env schedule (w0, racing_checks bill args))) = true) /\
  (forall schedule w pool,
     interleave env schedule (w0, racing_checks bill args) = (w, pool) ->
     forallb finished pool = true ->
     count (is_paid_notice bill) (since w0 w) = List.length args /\
     count (is_removal bill) (since w0 w) = present_count bill w0 /\
     dict_contains bill (active_transactions w) = false).
Proof.
  intros Hpaid Hdelivered Hnd Hl Hargs. split.
  - exists (one_by_one (List.length args) 12).
    exact (one_by_one_finishes env bill args [] w0 eq_refl Hl).
  - intros schedule w pool Hrun Hfin.
    assert (Hinit : race_invariant bill
                      (count (is_paid_notice bill) (trace w0) + List.length args)
                      (count (is_removal bill) (trace w0) + present_count bill w0)
                      w0 (racing_checks bill args)).
    { constructor.
      - exact Hnd.
      - unfold racing_checks. apply Forall_forall. intros p Hp.
        apply in_map_iff in Hp as [[[md5 chat] message] [<- _]].
        apply check_payment_status_never_assigns.
      - unfold racing_checks. apply Forall_forall. intros p Hp.
        apply in_map_iff in Hp as [[[md5 chat] message] [<- _]].
        right. apply check_payment_status_will_clear.
      - exists (repeat 1%nat (List.length args)).
        split; [apply owes_racing_checks | now rewrite list_sum_repeat_1].
      - reflexivity. }
    pose proof (interleave_invariant env bill Hpaid Hdelivered _ _ schedule _ _ Hinit)
      as [_ _ Hcl (ns & Hns & Hsum) Hrem].
    destruct (interleave_trace env schedule w0 (racing_checks bill args)) as [evs Hevs].
    pose proof (interleave_length env schedule w0 (racing_checks bill args)) as Hlen.
    rewrite Hrun in *. simpl fst in *; simpl snd in *.
    rewrite (since_app _ _ _ Hevs). rewrite Hevs, count_app in Hsum, Hrem.
    rewrite (owes_finished bill pool ns Hns Hfin) in Hsum.
    assert (Habsent : dict_contains bill (active_transactions w) = false).
    { destruct pool as [|p pool].
      - unfold racing_checks in Hlen. rewrite length_map in Hlen.
        destruct args; [now elim Hargs | discriminate].
      - inversion Hcl as [|? ? [H|H] _]; subst; [exact H|].
        simpl in Hfin. apply andb_prop in Hfin as [Hp _].
        destruct p; simpl in H, Hp; [contradiction | contradiction | discriminate]. }
    split; [lia|]. split; [|exact Habsent].
    unfold present_count in Hrem at 1. rewrite Habsent in Hrem. lia.
Qed.

Lemma racing_checks_notify_each_witness :
  let args := [("f1", 42%Z, 7%Z); ("f1", 42%Z, 7%Z); ("f1", 42%Z, 0%Z)] in
  let w0 := world_of [("TRX1", T1); ("TRX2", T2)] in
  let schedule := [0; 1; 2; 2; 1; 0; 0; 0; 1; 1; 2; 2; 2; 2; 2;
                   1; 1; 1; 1; 1; 1; 0; 0; 0; 0; 0; 0]%nat in
  let final := interleave race_env schedule (w0, racing_checks "TRX1" args) in
  forallb finished (snd final) = true /\
  count (is_paid_notice "TRX1") (since w0 (fst final)) = List.length args /\
  count (is_removal "TRX1") (since w0 (fst final)) = present_count "TRX1" w0 /\
  dict_contains "TRX1" (active_transactions (fst final)) = false.
Proof.
  intros args w0 schedule final.
  assert (Hfin : forallb finished (snd final) = true) by (vm_compute; reflexivity).
  split; [exact Hfin|].
  assert (Hnd : NoDup (dict_keys (active_transactions w0))).
  { simpl. constructor.
    - simpl. intros [H|[]]. discriminate H.
    - constructor; [intros [] | constructor]. }
  assert (Hargs : args <> []) by discriminate.
  destruct (racing_checks_notify_each race_env "TRX1" args w0
              (fun _ _ => eq_refl) (fun _ _ _ _ => eq_refl) Hnd eq_refl Hargs)
    as [_ Hall].
  exact (Hall schedule (fst final) (snd final) (surjective_pairing final) Hfin).
Defined.

(** * Further properties of the code *)

(** Symbolic execution that first uses what is known of the environment. *)
Ltac run_with known :=
  cbn; repeat (first [known | run_step | progress unfold perform, answer]; cbn);
  repeat rewrite <- app_assoc; cbn.

(** Restate a goal about [outcome_of], [world_after] and [events_of] with
    the result of the run. *)
Ltac use_run Hrun :=
  unfold outcome_of, events_of, world_after;
  rewrite Hrun; simpl fst; simpl snd;
  match type of Hrun with
  | _ = (_, mkWorld _ _ (_ ++ ?l)) => rewrite (since_app _ _ l) by reflexivity
  end.

(** ** [check_payment_status] *)

(** X1: whatever the payment network and Telegram do, a status check started
    with the lock free returns a boolean (no exception leaves it), asks the
    payment network once, about the fingerprint it was given, leaves the
    lock free and makes no external call while it holds the lock. *)
Theorem check_payment_status_returns env bill md5 chat message (w : World) :
  transaction_lock w = false ->
  (exists confirmed,
     outcome_of env (check_payment_status bill md5 chat message) w = Returned confirmed) /\
  transaction_lock (world_after env (check_payment_status bill md5 chat message) w) = false /\
  oracle_queries (events_of env (check_payment_status bill md5 chat message) w) = [md5] /\
  external_under_lock false
    (events_of env (check_payment_status bill md5 chat message) w) = false.
Proof.
  intros Hl. destruct w as [d l tr]. simpl in Hl. subst l.
  destruct (check_payment_status_spec env bill md5 chat message d tr)
    as (r & evs & d' & Hrun & Hq & _ & _ & Hx).
  use_run Hrun. repeat split; auto. now exists r.
Qed.

Lemma check_payment_status_returns_witness :
  let env := env_status 1000 network_down in
  let w := world_of [("TRX1", T1)] in
  transaction_lock w = false /\
  oracle_queries (events_of env (check_payment_status "TRX1" "f1" 42 7) w) = ["f1"].
Proof.
  cbv zeta. split; [reflexivity|].
  exact (proj1 (proj2 (proj2 (check_payment_status_returns
                                (env_status 1000 network_down) "TRX1" "f1" 42 7
                                (world_of [("TRX1", T1)]) eq_refl)))).
Defined.

(** X2: what the returned boolean means.  [True]: the success message for the
    bill was delivered, once, and the bill is not in the dictionary any
    more.  [False]: no success message was delivered and the dictionary is
    as it was. *)
Theorem check_payment_status_result env bill md5 chat message (w : World) :
  transaction_lock w = false ->
  NoDup (dict_keys (active_transactions w)) ->
  let w' := world_after env (check_payment_status bill md5 chat message) w in
  let evs := events_of env (check_payment_status bill md5 chat message) w in
  (outcome_of env (check_payment_status bill md5 chat message) w = Returned true ->
   count (is_paid_notice bill) evs = 1%nat /\
   dict_contains bill (active_transactions w') = false) /\
  (outcome_of env (check_payment_status bill md5 chat message) w = Returned false ->
   count (is_paid_notice bill) evs = 0%nat /\
   active_transactions w' = active_transactions w).
Proof.
  intros Hl Hnd. destruct w as [d l tr]. simpl in Hl, Hnd. subst l.
  assert (H : exists confirmed evs d',
    run env (check_payment_status bill md5 chat message) (mkWorld d false tr)
      = (Returned confirmed, mkWorld d' false (tr ++ evs)) /\
    (confirmed = true ->
     count (is_paid_notice bill) evs = 1%nat /\ dict_contains bill d' = false) /\
    (confirmed = false ->
     count (is_paid_notice bill) evs = 0%nat /\ d' = d)).
  { unfold check_payment_status, with_lock. run_all.
    all: do 3 eexists; (split; [reflexivity|]).
    all: unfold count, is_paid_notice, ev_ok; cbn; rewrite ?String.eqb_refl; cbn.
    all: split; intros Hc; try discriminate Hc; split; try reflexivity.
    all: try assumption.
    all: now apply dict_contains_del_same. }
  destruct H as (confirmed & evs & d' & Hrun & Ht & Hf).
  cbv zeta. use_run Hrun. simpl.
  split; intros Hc; injection Hc as ->; auto.
Qed.

Lemma check_payment_status_result_witness :
  let env := env_status 1000 (always "PAID") in
  let w := world_of [("TRX1", T1); ("TRX2", T2)] in
  outcome_of env (check_payment_status "TRX1" "f1" 42 7) w = Returned true /\
  dict_contains "TRX1"
    (active_transactions (world_after env (check_payment_status "TRX1" "f1" 42 7) w)) = false.
Proof.
  cbv zeta.
  assert (Hnd : NoDup (dict_keys (active_transactions
                                    (world_of [("TRX1", T1); ("TRX2", T2)])))).
  { simpl. constructor.
    - simpl. intros [H|[]]. discriminate H.
    - constructor; [intros [] | constructor]. }
  split; [reflexivity|].
  exact (proj2 (proj1 (check_payment_status_result
                         (env_status 1000 (always "PAID")) "TRX1" "f1" 42 7
                         (world_of [("TRX1", T1); ("TRX2", T2)]) eq_refl Hnd)
                      eq_refl)).
Defined.

(** X3: a status other than "PAID" is no outcome: the check returns [False]
    having done nothing but ask; nothing is sent, logged, locked or
    removed. *)
Theorem check_payment_status_unpaid env bill md5 chat message (w : World) status :
  external env (trace w) (check_payment md5) = Ok status ->
  status <> "PAID" ->
  outcome_of env (check_payment_status bill md5 chat message) w = Returned false /\
  events_of env (check_payment_status bill md5 chat message) w
    = [Ev (check_payment md5) (Ok status)] /\
  active_transactions (world_after env (check_payment_status bill md5 chat message) w)
    = active_transactions w /\
  transaction_lock (world_after env (check_payment_status bill md5 chat message) w)
    = transaction_lock w.
Proof.
  intros Hq Hs. destruct w as [d l tr]. simpl in Hq.
  apply String.eqb_neq in Hs.
  assert (Hrun : run env (check_payment_status bill md5 chat message) (mkWorld d l tr)
                 = (Returned false,
                    mkWorld d l (tr ++ [Ev (check_payment md5) (Ok status)]))).
  { unfold check_payment_status. cbn. rewrite Hq. cbn. rewrite Hs. reflexivity. }
  use_run Hrun. auto.
Qed.

Lemma check_payment_status_unpaid_witness :
  let env := env_status 1000 (always "UNPAID") in
  let w := world_of [("TRX1", T1)] in
  external env (trace w) (check_payment "f1") = Ok "UNPAID" /\
  "UNPAID" <> "PAID" /\
  events_of env (check_payment_status "TRX1" "f1" 42 7) w
    = [Ev (check_payment "f1") (Ok "UNPAID")].
Proof.
  cbv zeta.
  assert (Hne : "UNPAID" <> "PAID") by discriminate.
  split; [reflexivity|]. split; [exact Hne|].
  exact (proj1 (proj2 (check_payment_status_unpaid
                         (env_status 1000 (always "UNPAID")) "TRX1" "f1" 42 7
                         (world_of [("TRX1", T1)]) "UNPAID" eq_refl Hne))).
Defined.

(** X4: when the call to the payment network raises, the check logs the error,
    tries to send the "check error" message to the chat, and returns
    [False]; the dictionary and the lock are not touched.  This is so for
    every caller, the polling thread included. *)
Theorem check_payment_status_network_error env bill md5 chat message (w : World) e :
  external env (trace w) (check_payment md5) = Err e ->
  outcome_of env (check_payment_status bill md5 chat message) w = Returned false /\
  map ev_action (events_of env (check_payment_status bill md5 chat message) w)
    = [check_payment md5; print (LogCheckFailed bill e); send_message chat CheckError] /\
  active_transactions (world_after env (check_payment_status bill md5 chat message) w)
    = active_transactions w /\
  transaction_lock (world_after env (check_payment_status bill md5 chat message) w)
    = transaction_lock w.
Proof.
  intros Hq. destruct w as [d l tr]. simpl in Hq.
  assert (H : exists evs,
    run env (check_payment_status bill md5 chat message) (mkWorld d l tr)
      = (Returned false, mkWorld d l (tr ++ evs)) /\
    map ev_action evs
      = [check_payment md5; print (LogCheckFailed bill e); send_message chat CheckError]).
  { unfold check_payment_status. cbn. rewrite Hq. run_all.
    all: eexists; split; reflexivity. }
  destruct H as (evs & Hrun & Hevs). use_run Hrun. auto.
Qed.

Lemma check_payment_status_network_error_witness :
  let env := env_status 1000 network_down in
  let w := world_of [("TRX1", T1)] in
  external env (trace w) (check_payment "f1") = Err (ApiException 500) /\
  map ev_action (events_of env (check_payment_status "TRX1" "f1" 42 7) w)
    = [check_payment "f1"; print (LogCheckFailed "TRX1" (ApiException 500));
       send_message 42 CheckError].
Proof.
  cbv zeta. split; [reflexivity|].
  exact (proj1 (proj2 (check_payment_status_network_error
                         (env_status 1000 network_down) "TRX1" "f1" 42 7
                         (world_of [("TRX1", T1)]) (ApiException 500) eq_refl))).
Defined.

(** X5: when the payment is "PAID" but Telegram refuses the success message,
    the check returns [False] and the record stays in the dictionary, so a
    later check finds it again; the "check error" message is tried
    instead. *)
Theorem check_payment_status_notice_refused env bill md5 chat message (w : World) e :
  external env (trace w) (check_payment md5) = Ok "PAID" ->
  (forall tr, external env tr (send_message chat (PaymentCompleted bill "PAID")) = Err e) ->
  outcome_of env (check_payment_status bill md5 chat message) w = Returned false /\
  sent_messages (events_of env (check_payment_status bill md5 chat message) w)
    = [(chat, PaymentCompleted bill "PAID"); (chat, CheckError)] /\
  count (is_paid_notice bill)
        (events_of env (check_payment_status bill md5 chat message) w) = 0%nat /\
  active_transactions (world_after env (check_payment_status bill md5 chat message) w)
    = active_transactions w /\
  transaction_lock (world_after env (check_payment_status bill md5 chat message) w)
    = transaction_lock w.
Proof.
  intros Hq Hsend. destruct w as [d l tr]. simpl in Hq.
  assert (H : exists evs,
    run env (check_payment_status bill md5 chat message) (mkWorld d l tr)
      = (Returned false, mkWorld d l (tr ++ evs)) /\
    sent_messages evs = [(chat, PaymentCompleted bill "PAID"); (chat, CheckError)] /\
    count (is_paid_notice bill) evs = 0%nat).
  { unfold check_payment_status. cbn. rewrite Hq.
    run_with ltac:(rewrite Hsend).
    all: eexists; (split; [reflexivity|]).
    all: unfold count, is_paid_notice, ev_ok; cbn; rewrite ?String.eqb_refl; cbn.
    all: split; reflexivity. }
  destruct H as (evs & Hrun & Hm & Hc). use_run Hrun. auto.
Qed.

Lemma check_payment_status_notice_refused_witness :
  let env := env_success_refused 1000 in
  let w := world_of [("TRX1", T1)] in
  external env (trace w) (check_payment "f1") = Ok "PAID" /\
  active_transactions (world_after env (check_payment_status "TRX1" "f1" 42 7) w)
    = active_transactions w.
Proof.
  cbv zeta. split; [reflexivity|].
  exact (proj1 (proj2 (proj2 (proj2
           (check_payment_status_notice_refused (env_success_refused 1000)
              "TRX1" "f1" 42 7 (world_of [("TRX1", T1)]) (ApiException 403)
              eq_refl (fun _ => eq_refl)))))).
Defined.

(** ** The removal loop of the polling thread *)

Lemma remove_marked_result env (keys : list string) d l tr :
  NoDup (dict_keys d) ->
  exists evs d',
    run env (remove_marked keys) (mkWorld d l tr) = (Returned tt, mkWorld d' l (tr ++ evs)) /\
    count is_external_call evs = 0%nat /\
    (forall b, count (is_paid_notice b) evs = 0%nat) /\
    shrunk d d' /\
    (forall k, In k keys -> dict_contains k d' = false) /\
    (forall k, ~ In k keys -> dict_get k d' = dict_get k d).
Proof.
  revert d tr. induction keys as [|key keys IH]; intros d tr Hnd.
  - exists [], d. cbn. rewrite app_nil_r.
    repeat split; auto using incl_refl. intros k [].
  - cbn [remove_marked]. rewrite run_bind. cbn.
    destruct (dict_contains key d) eqn:E.
    + rewrite run_bind. cbn. unfold perform, answer. cbn. rewrite E. cbn.
      match goal with |- context [run env (remove_marked keys) (mkWorld ?d1 l ?t1)] =>
        destruct (IH d1 t1 (dict_del_NoDup key d Hnd))
          as (evs & d' & Hrun & Hx & Hp & Hs & Hk & Ho)
      end.
      rewrite Hrun. repeat rewrite <- app_assoc. cbn.
      do 2 eexists. split; [reflexivity|].
      split; [exact Hx|]. split; [exact Hp|].
      split; [eapply shrunk_trans; [apply shrunk_del | exact Hs]|].
      split.
      * intros k [<-|Hin]; [|now apply Hk].
        eapply shrunk_absent; [exact Hs|]. now apply dict_contains_del_same.
      * intros k Hk'. rewrite Ho by (intros Hin; apply Hk'; now right).
        apply dict_get_del_other. intros ->. apply Hk'. now left.
    + rewrite run_bind. cbn.
      match goal with |- context [run env (remove_marked keys) (mkWorld ?d1 l ?t1)] =>
        destruct (IH d1 t1 Hnd) as (evs & d' & Hrun & Hx & Hp & Hs & Hk & Ho)
      end.
      rewrite Hrun. repeat rewrite <- app_assoc. cbn.
      do 2 eexists. split; [reflexivity|].
      split; [exact Hx|]. split; [exact Hp|]. split; [exact Hs|]. split.
      * intros k [<-|Hin]; [eapply shrunk_absent; eassumption | now apply Hk].
      * intros k Hk'. apply Ho. intros Hin. apply Hk'. now right.
Qed.

(** X6: the loop that removes the marked bill numbers never raises: a key that
    is not in the dictionary any more (removed by a racing check, or listed
    twice) is skipped.  It only deletes, calls nothing outside, and when
    it is done none of the marked keys is in the dictionary. *)
Theorem remove_marked_skips_missing env (keys : list string) (w : World) :
  NoDup (dict_keys (active_transactions w)) ->
  outcome_of env (remove_marked keys) w = Returned tt /\
  count is_external_call (events_of env (remove_marked keys) w) = 0%nat /\
  incl (active_transactions (world_after env (remove_marked keys) w))
       (active_transactions w) /\
  (forall k, In k keys ->
     dict_contains k (active_transactions (world_after env (remove_marked keys) w)) = false) /\
  (forall k, ~ In k keys ->
     dict_get k (active_transactions (world_after env (remove_marked keys) w))
       = dict_get k (active_transactions w)).
Proof.
  intros Hnd. destruct w as [d l tr]. simpl in Hnd.
  destruct (remove_marked_result env keys d l tr Hnd)
    as (evs & d' & Hrun & Hx & _ & Hs & Hk & Ho).
  use_run Hrun. repeat split; auto. apply Hs.
Qed.

Lemma remove_marked_skips_missing_witness :
  let env := env_status 1000 (always "UNPAID") in
  let w := world_of [("TRX1", T1); ("TRX2", T2)] in
  outcome_of env (remove_marked ["TRX9"; "TRX1"; "TRX1"]) w = Returned tt.
Proof.
  cbv zeta.
  assert (Hnd : NoDup (dict_keys (active_transactions
                                    (world_of [("TRX1", T1); ("TRX2", T2)])))).
  { simpl. constructor.
    - simpl. intros [H|[]]. discriminate H.
    - constructor; [intros [] | constructor]. }
  exact (proj1 (remove_marked_skips_missing (env_status 1000 (always "UNPAID"))
                  ["TRX9"; "TRX1"; "TRX1"]
                  (world_of [("TRX1", T1); ("TRX2", T2)]) Hnd)).
Defined.

(** ** The lock is never kept *)

Lemma lock_untouched_bind {A B : Type} (p : prog A) (f : A -> prog B) :
  lock_untouched p -> (forall a, lock_untouched (f a)) -> lock_untouched (bind p f).
Proof.
  induction p as [a|e|a k IH]; simpl; intros Hp Hf; auto.
  destruct Hp as [Ha Hk]. split; [exact Ha|]. intros r. apply IH; auto.
Qed.

Lemma lock_untouched_try_catch {A : Type} (p : prog A) (h : exn -> prog A) :
  lock_untouched p -> (forall e, lock_untouched (h e)) -> lock_untouched (try_catch p h).
Proof.
  induction p as [a|e|a k IH]; simpl; intros Hp Hh; auto.
  destruct Hp as [Ha Hk]. split; [exact Ha|]. intros r. apply IH; auto.
Qed.

Lemma lock_untouched_call (a : action) :
  match a with lock_acquire | lock_release => False | _ => True end ->
  lock_untouched (call a).
Proof. intros H. simpl. split; [exact H|]. intros [x|e]; exact I. Qed.

Lemma lock_next_other held a r :
  match a with lock_acquire | lock_release => False | _ => True end ->
  lock_next held (Ev a r) = held.
Proof. destruct a; simpl; intros H; try contradiction; reflexivity. Qed.

(** A block that leaves the lock alone can run with or without it. *)
Lemma lock_untouched_tracked {A : Type} (p : prog A) :
  lock_untouched p -> lock_tracked false p.
Proof.
  induction p as [a|e|a k IH]; simpl; intros Hp; auto.
  destruct Hp as [Ha Hk]. split; [destruct a; auto|].
  intros r _. rewrite lock_next_other by exact Ha. apply IH, Hk.
Qed.

Lemma lock_tracked_bind {A B : Type} (p : prog A) (f : A -> prog B) held :
  lock_tracked held p -> (forall a, lock_tracked false (f a)) ->
  lock_tracked held (bind p f).
Proof.
  revert held. induction p as [a|e|a k IH]; simpl; intros held Hp Hf.
  - subst held. apply Hf.
  - exact Hp.
  - destruct Hp as [Ha Hk]. split; [exact Ha|]. intros r Hr. apply IH; auto.
Qed.

Lemma lock_tracked_try_catch {A : Type} (p : prog A) (h : exn -> prog A) held :
  lock_tracked held p -> (forall e, lock_tracked false (h e)) ->
  lock_tracked held (try_catch p h).
Proof.
  revert held. induction p as [a|e|a k IH]; simpl; intros held Hp Hh.
  - exact Hp.
  - subst held. apply Hh.
  - destruct Hp as [Ha Hk]. split; [exact Ha|]. intros r Hr. apply IH; auto.
Qed.

(** [with transaction_lock:] releases the lock however its block ends. *)
Lemma lock_tracked_with_lock {A : Type} (body : prog A) :
  lock_untouched body -> lock_tracked false (with_lock body).
Proof.
  intros Hbody. unfold with_lock. simpl. split; [reflexivity|].
  intros [[]|e] Hr; [|discriminate Hr]. simpl.
  induction body as [a|e|a k IH]; simpl.
  - split; [exact I|]. intros [[]|e] Hr'; [reflexivity | discriminate Hr'].
  - split; [exact I|]. intros [[]|e'] Hr'; [reflexivity | discriminate Hr'].
  - destruct Hbody as [Ha Hk].
    split; [destruct a; simpl in Ha; try contradiction; exact I|].
    intros r _. rewrite lock_next_other by exact Ha. apply IH, Hk.
Qed.

Lemma perform_lock_answer env w a r w' :
  perform env w a = Some (r, w') -> lock_answer (transaction_lock w) (Ev a r) = true.
Proof.
  unfold perform, answer. intros H.
  destruct a; simpl in H; try reflexivity;
    destruct (transaction_lock w); try discriminate;
    injection H as <- <-; reflexivity.
Qed.

Lemma perform_lock_next env w a r w' :
  perform env w a = Some (r, w') ->
  transaction_lock w' = lock_next (transaction_lock w) (Ev a r).
Proof.
  unfold perform, answer. intros H.
  destruct a; simpl in H;
    repeat match type of H with
           | context [if ?b then _ else _] => destruct b eqn:?
           end;
    try discriminate; injection H as <- <-; simpl; auto.
Qed.

(** A program that tracks the lock is never blocked when run alone and
    ends with the lock free. *)
Lemma run_lock_tracked {A : Type} env (p : prog A) w :
  lock_tracked (transaction_lock w) p ->
  outcome_of env p w <> Blocked /\ transaction_lock (world_after env p w) = false.
Proof.
  unfold outcome_of, world_after. revert w.
  induction p as [a|e|a k IH]; intros w Hp; simpl in *.
  - split; [discriminate | exact Hp].
  - split; [discriminate | exact Hp].
  - destruct Hp as [Ha Hk].
    destruct (perform env w a) as [[r w']|] eqn:E.
    + apply IH. rewrite (perform_lock_next _ _ _ _ _ E).
      apply Hk. eapply perform_lock_answer; eassumption.
    + exfalso. unfold perform, answer in E.
      destruct a; simpl in E;
        repeat match type of E with
               | context [if ?b then _ else _] => destruct b eqn:?
               end; try discriminate.
Qed.

Ltac lock_tac :=
  repeat match goal with
         | |- lock_tracked false (with_lock _) => apply lock_tracked_with_lock
         | |- lock_tracked false (bind _ _) => apply lock_tracked_bind
         | |- lock_tracked false (try_catch _ _) => apply lock_tracked_try_catch
         | |- lock_tracked false (call _) => apply lock_untouched_tracked
         | |- lock_tracked false (Ret _) => reflexivity
         | |- lock_tracked false (Raise _) => reflexivity
         | |- lock_tracked false (if ?b then _ else _) => destruct b
         | |- lock_tracked false (match ?x with _ => _ end) => destruct x
         | |- lock_untouched (bind _ _) => apply lock_untouched_bind
         | |- lock_untouched (try_catch _ _) => apply lock_untouched_try_catch
         | |- lock_untouched (call ?a) => exact (lock_untouched_call a I)
         | |- lock_untouched (Ret _) => exact I
         | |- lock_untouched (Raise _) => exact I
         | |- lock_untouched (if ?b then _ else _) => destruct b
         | |- lock_untouched (match ?x with _ => _ end) => destruct x
         | |- forall _, _ => intro; cbv beta
         end.

Lemma check_payment_status_lock_tracked bill md5 chat message :
  lock_tracked false (check_payment_status bill md5 chat message).
Proof. unfold check_payment_status. lock_tac. Qed.

Lemma process_items_lock_tracked now items marked :
  lock_tracked false (process_items now items marked).
Proof.
  revert marked.
  induction items as [|[bill data] items IH]; intros marked; cbn [process_items].
  - reflexivity.
  - apply lock_tracked_bind; [|intros a; apply IH].
    unfold process_item. destruct (expiry_time data <? now)%Z.
    + lock_tac.
    + apply lock_tracked_bind; [apply check_payment_status_lock_tracked|].
      intros a. reflexivity.
Qed.

Lemma remove_marked_lock_untouched keys : lock_untouched (remove_marked keys).
Proof.
  induction keys as [|key keys IH]; cbn [remove_marked]; [exact I|].
  apply lock_untouched_bind; [lock_tac|]. intros present.
  apply lock_untouched_bind; [|intros _; exact IH].
  destruct present; lock_tac.
Qed.

Lemma cleanup_pass_lock_tracked : lock_tracked false cleanup_pass.
Proof.
  unfold cleanup_pass.
  apply lock_tracked_bind; [lock_tac|]. intros now.
  apply lock_tracked_bind; [lock_tac|]. intros items.
  apply lock_tracked_bind; [apply process_items_lock_tracked|]. intros marked.
  apply lock_tracked_bind; [|lock_tac].
  apply lock_tracked_with_lock, remove_marked_lock_untouched.
Qed.

Lemma check_and_cleanup_lock_tracked ticks :
  lock_tracked false (check_and_cleanup_transactions ticks).
Proof.
  induction ticks as [|n IH]; cbn [check_and_cleanup_transactions]; [reflexivity|].
  apply lock_tracked_bind; [apply cleanup_pass_lock_tracked | intros _; exact IH].
Qed.

Lemma handle_confirm_payment_lock_tracked c :
  lock_tracked false (handle_confirm_payment c).
Proof.
  unfold handle_confirm_payment.
  apply lock_tracked_bind; [lock_tac|]. intros _.
  apply lock_tracked_bind; [lock_tac|]. intros [[[md5 chat] message]|].
  - apply lock_tracked_bind; [apply check_payment_status_lock_tracked|].
    lock_tac.
  - reflexivity.
Qed.

Lemma generate_khqr_payment_lock_tracked khqr_client message :
  lock_tracked false (generate_khqr_payment khqr_client message).
Proof. unfold generate_khqr_payment, store_transaction. lock_tac. Qed.

(** X7: started with the lock free, the status check, the polling thread (for
    any number of passes), the button handler and the [/pay] handler are
    never blocked on the lock and leave it free when they end, whatever
    the environment answers and also when an exception ends them. *)
Theorem lock_released_at_end env (w : World) :
  transaction_lock w = false ->
  (forall bill md5 chat message,
     outcome_of env (check_payment_status bill md5 chat message) w <> Blocked /\
     transaction_lock
       (world_after env (check_payment_status bill md5 chat message) w) = false) /\
  (forall ticks,
     outcome_of env (check_and_cleanup_transactions ticks) w <> Blocked /\
     transaction_lock
       (world_after env (check_and_cleanup_transactions ticks) w) = false) /\
  (forall c,
     outcome_of env (handle_confirm_payment c) w <> Blocked /\
     transaction_lock (world_after env (handle_confirm_payment c) w) = false) /\
  (forall khqr_client message,
     outcome_of env (generate_khqr_payment khqr_client message) w <> Blocked /\
     transaction_lock
       (world_after env (generate_khqr_payment khqr_client message) w) = false).
Proof.
  intros Hl. repeat split; intros; apply run_lock_tracked; rewrite Hl.
  all: auto using check_payment_status_lock_tracked, check_and_cleanup_lock_tracked,
         handle_confirm_payment_lock_tracked, generate_khqr_payment_lock_tracked.
Qed.

Lemma lock_released_at_end_witness :
  let env := env_expiry_refused 1500 (always "UNPAID") in
  let w := world_of [("TRX1", T1); ("TRX2", T2)] in
  transaction_lock w = false /\
  outcome_of env (check_and_cleanup_transactions 2) w = Raised (ApiException 403) /\
  transaction_lock (world_after env (check_and_cleanup_transactions 2) w) = false.
Proof.
  cbv zeta. split; [reflexivity|]. split; [reflexivity|].
  exact (proj2 (proj1 (proj2 (lock_released_at_end
                                (env_expiry_refused 1500 (always "UNPAID"))
                                (world_of [("TRX1", T1); ("TRX2", T2)]) eq_refl)) 2%nat)).
Defined.

(** ** What the handlers never do *)

Lemma avoids_bind bad {A B : Type} (p : prog A) (f : A -> prog B) :
  avoids bad p -> (forall a, avoids bad (f a)) -> avoids bad (bind p f).
Proof.
  induction p as [a|e|a k IH]; simpl; intros Hp Hf; auto.
  destruct Hp as [Ha Hk]. split; [exact Ha|]. intros r. apply IH; auto.
Qed.

Lemma avoids_try_catch bad {A : Type} (p : prog A) (h : exn -> prog A) :
  avoids bad p -> (forall e, avoids bad (h e)) -> avoids bad (try_catch p h).
Proof.
  induction p as [a|e|a k IH]; simpl; intros Hp Hh; auto.
  destruct Hp as [Ha Hk]. split; [exact Ha|]. intros r. apply IH; auto.
Qed.

Lemma avoids_finally bad {A : Type} (p : prog A) (q : prog unit) :
  avoids bad p -> avoids bad q -> avoids bad (finally p q).
Proof.
  induction p as [a|e|a k IH]; simpl; intros Hp Hq.
  - apply avoids_bind; simpl; auto.
  - apply avoids_bind; simpl; auto.
  - destruct Hp as [Ha Hk]. split; [exact Ha|]. intros r. apply IH; auto.
Qed.

Lemma avoids_call bad (a : action) : bad a = false -> avoids bad (call a).
Proof. intros H. simpl. split; [exact H|]. intros [x|e]; exact I. Qed.

(** What a program avoids does not show in the trace of its run. *)
Lemma run_avoids bad {A : Type} env (p : prog A) w :
  avoids bad p ->
  count (fun e => bad (ev_action e)) (events_of env p w) = 0%nat.
Proof.
  intros Hp.
  assert (H : exists evs, trace (snd (run env p w)) = trace w ++ evs /\
                          count (fun e => bad (ev_action e)) evs = 0%nat).
  { revert w. induction p as [a|e|a k IH]; intros w; simpl.
    - exists []. now rewrite app_nil_r.
    - exists []. now rewrite app_nil_r.
    - destruct Hp as [Ha Hk].
      destruct (perform env w a) as [[r w']|] eqn:E; simpl.
      + destruct (IH r (Hk r) w') as (evs & Hevs & Hc). exists (Ev a r :: evs).
        rewrite Hevs, (perform_trace _ _ _ _ _ E), <- app_assoc. split; [reflexivity|].
        unfold count in *. simpl. rewrite Ha. exact Hc.
      + exists []. now rewrite app_nil_r. }
  destruct H as (evs & Hevs & Hc).
  unfold events_of, world_after. now rewrite (since_app _ _ _ Hevs).
Qed.

Ltac avoids_tac :=
  repeat match goal with
         | |- avoids _ (bind _ _) => apply avoids_bind
         | |- avoids _ (try_catch _ _) => apply avoids_try_catch
         | |- avoids _ (finally _ _) => apply avoids_finally
         | |- avoids _ (with_lock _) => unfold with_lock
         | |- avoids ?bad (call ?a) => exact (avoids_call bad a eq_refl)
         | |- avoids _ (Ret _) => exact I
         | |- avoids _ (Raise _) => exact I
         | |- avoids _ (if ?b then _ else _) => destruct b
         | |- avoids _ (match ?x with _ => _ end) => destruct x
         | |- forall _, _ => intro; cbv beta
         end.

Lemma check_payment_status_avoids_clock bill md5 chat message :
  avoids reads_clock (check_payment_status bill md5 chat message).
Proof. unfold check_payment_status. avoids_tac. Qed.

Lemma handle_confirm_payment_avoids_clock c :
  avoids reads_clock (handle_confirm_payment c).
Proof.
  unfold handle_confirm_payment.
  apply avoids_bind; [avoids_tac|]. intros _.
  apply avoids_bind; [avoids_tac|]. intros [[[md5 chat] message]|].
  - apply avoids_bind; [apply check_payment_status_avoids_clock|]. avoids_tac.
  - exact I.
Qed.

(** X8: neither the status check nor the handler of the confirm button ever
    reads the clock: what they do does not depend on the time, and so not
    on the deadline of the record. *)
Theorem manual_check_never_reads_clock env (w : World) :
  (forall bill md5 chat message,
     count is_clock_read
           (events_of env (check_payment_status bill md5 chat message) w) = 0%nat) /\
  (forall c, count is_clock_read (events_of env (handle_confirm_payment c) w) = 0%nat).
Proof.
  split; intros.
  - apply (run_avoids reads_clock env _ w
             (check_payment_status_avoids_clock bill md5 chat message)).
  - apply (run_avoids reads_clock env _ w (handle_confirm_payment_avoids_clock c)).
Qed.

Lemma generate_khqr_payment_avoids khqr_client message :
  avoids deletes_or_checks (generate_khqr_payment khqr_client message).
Proof. unfold generate_khqr_payment, store_transaction. avoids_tac. Qed.

Lemma perform_keeps_keys env w a r w' :
  deletes_or_checks a = false ->
  perform env w a = Some (r, w') ->
  forall k, dict_contains k (active_transactions w) = true ->
            dict_contains k (active_transactions w') = true.
Proof.
  unfold perform, answer. intros Ha H k Hk.
  destruct a; try discriminate Ha; simpl in H;
    repeat match type of H with
           | context [if ?b then _ else _] => destruct b
           end;
    try discriminate; injection H as <- <-; simpl; auto.
  apply dict_contains_In. apply dict_contains_In in Hk.
  unfold dict_keys in *. clear -Hk.
  induction (active_transactions w) as [|[k1 v1] d IH]; simpl in *; [contradiction|].
  destruct (String.eqb k1 k0); simpl; destruct Hk as [Hk|Hk]; auto.
Qed.

Lemma run_keeps_keys {A : Type} env (p : prog A) w :
  avoids deletes_or_checks p ->
  forall k, dict_contains k (active_transactions w) = true ->
            dict_contains k (active_transactions (world_after env p w)) = true.
Proof.
  unfold world_after. revert w.
  induction p as [a|e|a k IH]; intros w Hp key Hkey; simpl; auto.
  destruct Hp as [Ha Hk].
  destruct (perform env w a) as [[r w']|] eqn:E; simpl; auto.
  apply IH; [apply Hk|]. eapply perform_keeps_keys; eassumption.
Qed.

(** X9: the [/pay] handler never asks for a payment status and never deletes
    from the dictionary: every bill number tracked before it is still
    tracked after it, whatever the environment answers. *)
Theorem pay_never_removes env khqr_client message (w : World) :
  oracle_queries (events_of env (generate_khqr_payment khqr_client message) w) = [] /\
  (forall b, count (is_removal b)
                   (events_of env (generate_khqr_payment khqr_client message) w) = 0%nat) /\
  (forall k, dict_contains k (active_transactions w) = true ->
     dict_contains k
       (active_transactions
          (world_after env (generate_khqr_payment khqr_client message) w)) = true).
Proof.
  pose proof (run_avoids deletes_or_checks env _ w
                (generate_khqr_payment_avoids khqr_client message)) as H.
  split; [|split].
  - revert H. generalize (events_of env (generate_khqr_payment khqr_client message) w).
    intros evs. unfold count. induction evs as [|e evs IH]; simpl; [reflexivity|].
    destruct (ev_action e); simpl; auto; discriminate.
  - intros b. revert H.
    generalize (events_of env (generate_khqr_payment khqr_client message) w).
    intros evs. unfold count. induction evs as [|e evs IH]; simpl; [reflexivity|].
    unfold is_removal at 1. destruct (ev_action e); simpl; auto; discriminate.
  - apply run_keeps_keys, generate_khqr_payment_avoids.
Qed.

(** ** Polling passes in general *)

Lemma check_payment_status_avoids_timing bill md5 chat message :
  avoids sleeps_or_reads_clock (check_payment_status bill md5 chat message).
Proof. unfold check_payment_status. avoids_tac. Qed.

Lemma process_items_avoids_timing now items marked :
  avoids sleeps_or_reads_clock (process_items now items marked).
Proof.
  revert marked.
  induction items as [|[bill data] items IH]; intros marked; cbn [process_items].
  - exact I.
  - apply avoids_bind; [|intros a; apply IH].
    unfold process_item. destruct (expiry_time data <? now)%Z.
    + avoids_tac.
    + apply avoids_bind; [apply check_payment_status_avoids_timing|].
      intros a. exact I.
Qed.

Lemma remove_marked_avoids_timing keys :
  avoids sleeps_or_reads_clock (remove_marked keys).
Proof.
  induction keys as [|key keys IH]; cbn [remove_marked]; [exact I|].
  apply avoids_bind; [avoids_tac|]. intros present.
  apply avoids_bind; [|intros _; exact IH].
  destruct present; avoids_tac.
Qed.

Lemma count_timing_zero evs :
  count (fun e => sleeps_or_reads_clock (ev_action e)) evs = 0%nat ->
  count is_interval_sleep evs = 0%nat /\ count is_clock_read evs = 0%nat.
Proof.
  unfold count. induction evs as [|e evs IH]; simpl; [auto|].
  unfold is_interval_sleep at 1, is_clock_read at 1.
  destruct (ev_action e); simpl; auto; discriminate.
Qed.

(** One pass, for any environment in which Telegram accepts the expiry
    messages. *)
Lemma cleanup_pass_spec env d tr :
  (forall tr chat b, external env tr (send_message chat (Expired b)) = Ok tt) ->
  exists evs d',
    run env cleanup_pass (mkWorld d false tr)
      = (Returned tt, mkWorld d' false (tr ++ evs)) /\
    oracle_queries evs
      = map (fun item => md5_hash (snd item)) (filter (unexpired (clock env tr)) d) /\
    (forall b, count (is_expired_notice b) evs
               = List.length (filter (expired_as (clock env tr) b) d)) /\
    shrunk d d' /\
    count is_interval_sleep evs = 1%nat /\
    count is_clock_read evs = 1%nat /\
    (NoDup (dict_keys d) ->
     forall item, In item d -> unexpired (clock env tr) item = false ->
                  dict_contains (fst item) d' = false).
Proof.
  intros Hsend. set (now := clock env tr).
  destruct (process_items_spec env now Hsend d [] d
              ((tr ++ [Ev time_time (Ok now)]) ++
               [Ev lock_acquire (Ok tt); Ev tx_items (Ok d); Ev lock_release (Ok tt)]))
    as (marked & evs1 & d1 & Hrun1 & Hq1 & Hx1 & Hs1 & _ & Hm1).
  destruct (remove_marked_spec env marked d1 true
              ((((tr ++ [Ev time_time (Ok now)]) ++
                 [Ev lock_acquire (Ok tt); Ev tx_items (Ok d); Ev lock_release (Ok tt)])
                ++ evs1) ++ [Ev lock_acquire (Ok tt)]))
    as (evs2 & d2 & Hrun2 & Hq2 & Hx2 & Hs2 & Hk2).
  pose proof (run_avoids sleeps_or_reads_clock env _
                (mkWorld d false
                   ((tr ++ [Ev time_time (Ok now)]) ++
                    [Ev lock_acquire (Ok tt); Ev tx_items (Ok d); Ev lock_release (Ok tt)]))
                (process_items_avoids_timing now d [])) as Ht1.
  rewrite (events_of_eq _ _ _ _ _ _ _ Hrun1) in Ht1.
  pose proof (run_avoids sleeps_or_reads_clock env _
                (mkWorld d1 true
                   ((((tr ++ [Ev time_time (Ok now)]) ++
                      [Ev lock_acquire (Ok tt); Ev tx_items (Ok d); Ev lock_release (Ok tt)])
                     ++ evs1) ++ [Ev lock_acquire (Ok tt)]))
                (remove_marked_avoids_timing marked)) as Ht2.
  rewrite (events_of_eq _ _ _ _ _ _ _ Hrun2) in Ht2.
  apply count_timing_zero in Ht1 as [Hsl1 Hcl1].
  apply count_timing_zero in Ht2 as [Hsl2 Hcl2].
  exists ([Ev time_time (Ok now); Ev lock_acquire (Ok tt); Ev tx_items (Ok d);
           Ev lock_release (Ok tt)]
          ++ evs1 ++ [Ev lock_acquire (Ok tt)] ++ evs2
          ++ [Ev lock_release (Ok tt); Ev (time_sleep CHECK_INTERVAL_SECONDS) (Ok tt)]), d2.
  split.
  { unfold cleanup_pass. rewrite run_bind. cbn. fold now.
    repeat rewrite <- app_assoc in *. cbn in *.
    rewrite run_bind, Hrun1. cbn.
    repeat rewrite <- app_assoc in *. cbn in *.
    rewrite run_bind, run_finally, Hrun2. cbn.
    repeat (rewrite <- app_assoc; cbn). reflexivity. }
  split; [|split; [|split; [|split; [|split]]]].
  - cbn. rewrite oracle_queries_app. cbn. rewrite oracle_queries_app, Hq1, Hq2.
    cbn. now rewrite app_nil_r.
  - intros b. repeat rewrite count_app. rewrite Hx1, Hx2. unfold count. cbn. lia.
  - eapply shrunk_trans; eassumption.
  - repeat rewrite count_app. rewrite Hsl1, Hsl2. unfold count. cbn. lia.
  - repeat rewrite count_app. rewrite Hcl1, Hcl2. unfold count. cbn. lia.
  - intros Hnd item Hin Hexp. apply Hk2; [now apply Hs1 | now apply Hm1].
Qed.

(** X10: failures are kept apart within a pass: as long as Telegram accepts the
    expiry messages, the pass goes through all of its snapshot and ends
    normally whatever the payment network answers and whichever other
    Telegram call fails.  Every record of the snapshot that is not expired
    is asked about exactly once, in the order of the dictionary; the pass
    only deletes from the dictionary and ends with the lock free. *)
Theorem polling_pass_completes env (w : World) :
  transaction_lock w = false ->
  (forall tr chat b, external env tr (send_message chat (Expired b)) = Ok tt) ->
  outcome_of env cleanup_pass w = Returned tt /\
  oracle_queries (events_of env cleanup_pass w)
    = map (fun item => md5_hash (snd item))
          (filter (unexpired (clock env (trace w))) (active_transactions w)) /\
  incl (active_transactions (world_after env cleanup_pass w)) (active_transactions w) /\
  transaction_lock (world_after env cleanup_pass w) = false.
Proof.
  intros Hl Hsend. destruct w as [d l tr]. simpl in Hl. subst l.
  destruct (cleanup_pass_spec env d tr Hsend)
    as (evs & d' & Hrun & Hq & _ & Hs & _).
  use_run Hrun. simpl. repeat split; auto. apply Hs.
Qed.

Lemma polling_pass_completes_witness :
  let env := env_status 1500 network_down in
  let w := world_of [("TRX1", T1); ("TRX2", T2)] in
  transaction_lock w = false /\
  outcome_of env cleanup_pass w = Returned tt /\
  oracle_queries (events_of env cleanup_pass w)
    = map (fun item => md5_hash (snd item))
          (filter (unexpired (clock env (trace w))) (active_transactions w)).
Proof.
  cbv zeta. split; [reflexivity|].
  destruct (polling_pass_completes (env_status 1500 network_down)
              (world_of [("TRX1", T1); ("TRX2", T2)]) eq_refl (fun _ _ _ => eq_refl))
    as (H1 & H2 & _).
  split; assumption.
Defined.

(** X11: the polling thread keeps its pace: as long as Telegram accepts the
    expiry messages, [ticks] turns of the loop end normally, each reads the
    clock once and each is followed by one pause of
    [CHECK_INTERVAL_SECONDS]. *)
Theorem polling_thread_keeps_pace env (ticks : nat) (w : World) :
  transaction_lock w = false ->
  (forall tr chat b, external env tr (send_message chat (Expired b)) = Ok tt) ->
  outcome_of env (check_and_cleanup_transactions ticks) w = Returned tt /\
  count is_interval_sleep (events_of env (check_and_cleanup_transactions ticks) w) = ticks /\
  count is_clock_read (events_of env (check_and_cleanup_transactions ticks) w) = ticks /\
  CHECK_INTERVAL_SECONDS = 30%Z.
Proof.
  intros Hl Hsend. destruct w as [d l tr]. simpl in Hl. subst l.
  assert (H : exists evs d',
    run env (check_and_cleanup_transactions ticks) (mkWorld d false tr)
      = (Returned tt, mkWorld d' false (tr ++ evs)) /\
    count is_interval_sleep evs = ticks /\ count is_clock_read evs = ticks).
  { revert d tr. induction ticks as [|n IH]; intros d tr.
    - exists [], d. cbn. rewrite app_nil_r. auto.
    - cbn [check_and_cleanup_transactions]. rewrite run_bind.
      destruct (cleanup_pass_spec env d tr Hsend)
        as (evs1 & d1 & Hrun1 & _ & _ & _ & Hsl1 & Hcl1 & _).
      rewrite Hrun1.
      destruct (IH d1 (tr ++ evs1)) as (evs2 & d2 & Hrun2 & Hsl2 & Hcl2).
      rewrite Hrun2. exists (evs1 ++ evs2), d2.
      rewrite app_assoc. split; [reflexivity|].
      rewrite !count_app, Hsl1, Hcl1, Hsl2, Hcl2. auto. }
  destruct H as (evs & d' & Hrun & Hsl & Hcl). use_run Hrun. auto.
Qed.

Lemma polling_thread_keeps_pace_witness :
  let env := env_status 1500 network_down in
  let w := world_of [("TRX1", T1); ("TRX2", T2)] in
  transaction_lock w = false /\
  count is_interval_sleep (events_of env (check_and_cleanup_transactions 3) w) = 3%nat.
Proof.
  cbv zeta. split; [reflexivity|].
  exact (proj1 (proj2 (polling_thread_keeps_pace (env_status 1500 network_down) 3
                         (world_of [("TRX1", T1); ("TRX2", T2)]) eq_refl
                         (fun _ _ _ => eq_refl)))).
Defined.

(** How a pass is put together from its loop and its removals. *)
Lemma cleanup_pass_run env d tr marked evs1 d1 evs2 d2 :
  let pre := [Ev time_time (Ok (clock env tr)); Ev lock_acquire (Ok tt);
              Ev tx_items (Ok d); Ev lock_release (Ok tt)] in
  run env (process_items (clock env tr) d []) (mkWorld d false (tr ++ pre))
    = (Returned marked, mkWorld d1 false ((tr ++ pre) ++ evs1)) ->
  run env (remove_marked marked)
      (mkWorld d1 true (((tr ++ pre) ++ evs1) ++ [Ev lock_acquire (Ok tt)]))
    = (Returned tt,
       mkWorld d2 true ((((tr ++ pre) ++ evs1) ++ [Ev lock_acquire (Ok tt)]) ++ evs2)) ->
  run env cleanup_pass (mkWorld d false tr)
    = (Returned tt,
       mkWorld d2 false
         (tr ++ pre ++ evs1 ++ [Ev lock_acquire (Ok tt)] ++ evs2
             ++ [Ev lock_release (Ok tt);
                 Ev (time_sleep CHECK_INTERVAL_SECONDS) (Ok tt)])).
Proof.
  intros pre Hrun1 Hrun2. subst pre.
  unfold cleanup_pass. rewrite run_bind. cbn.
  repeat rewrite <- app_assoc in *. cbn in *.
  rewrite run_bind, Hrun1. cbn.
  repeat rewrite <- app_assoc in *. cbn in *.
  rewrite run_bind, run_finally, Hrun2. cbn.
  repeat (rewrite <- app_assoc; cbn). reflexivity.
Qed.

Lemma dict_get_In k v d :
  NoDup (dict_keys d) -> In (k, v) d -> dict_get k d = Some v.
Proof.
  induction d as [|[k0 v0] d IH]; simpl; intros Hnd Hin; [contradiction|].
  inversion Hnd as [|? ? Hnotin Hnd']; subst.
  destruct Hin as [Heq|Hin].
  - injection Heq as -> ->. now rewrite String.eqb_refl.
  - destruct (String.eqb_spec k0 k) as [->|ne]; [|now apply IH].
    exfalso. apply Hnotin. unfold dict_keys. apply in_map_iff. now exists (k, v).
Qed.

Lemma count_nil f : count f [] = 0%nat.
Proof. reflexivity. Qed.

(** A check that is not answered "PAID" returns [False] and leaves the
    dictionary alone. *)
Lemma check_payment_status_not_paid env bill md5 chat message d tr :
  external env tr (check_payment md5) <> Ok "PAID" ->
  exists evs,
    run env (check_payment_status bill md5 chat message) (mkWorld d false tr)
      = (Returned false, mkWorld d false (tr ++ evs)) /\
    (forall b, count (is_paid_notice b) evs = 0%nat).
Proof.
  intros Hne. unfold check_payment_status, with_lock. cbn.
  destruct (external env tr (check_payment md5)) as [status|e] eqn:Hq; cbn.
  - destruct (String.eqb_spec status "PAID") as [->|Hs]; [now elim Hne|].
    cbn. eexists. split; [reflexivity|]. intros b. reflexivity.
  - run_all.
    all: eexists; (split; [reflexivity|]); intros b; reflexivity.
Qed.

Section QuietPass.

Variable env : Env.
Variable now : Z.

Hypothesis expiry_delivered :
  forall tr chat bill, external env tr (send_message chat (Expired bill)) = Ok tt.
Hypothesis never_paid :
  forall tr md5, external env tr (check_payment md5) <> Ok "PAID".

Lemma process_items_never_paid items marked d tr :
  exists evs,
    run env (process_items now items marked) (mkWorld d false tr)
      = (Returned (marked ++ map fst (filter (fun item => negb (unexpired now item)) items)),
         mkWorld d false (tr ++ evs)) /\
    (forall b, count (is_paid_notice b) evs = 0%nat).
Proof.
  revert marked tr. induction items as [|[bill data] items IH]; intros marked tr.
  - exists []. cbn. rewrite !app_nil_r. auto.
  - cbn [process_items]. rewrite run_bind.
    assert (H1 : exists evs1,
      run env (process_item now (bill, data) marked) (mkWorld d false tr)
        = (Returned (if unexpired now (bill, data) then marked else marked ++ [bill]),
           mkWorld d false (tr ++ evs1)) /\
      (forall b, count (is_paid_notice b) evs1 = 0%nat)).
    { unfold process_item, unexpired. simpl snd.
      destruct (expiry_time data <? now)%Z; simpl negb.
      - run_all.
        all: try match goal with
                 | H : external _ _ (send_message _ (Expired _)) = Err _ |- _ =>
                     rewrite expiry_delivered in H; discriminate
                 end.
        all: eexists; (split; [reflexivity|]); intros b; reflexivity.
      - rewrite run_bind.
        destruct (check_payment_status_not_paid env bill (md5_hash data) (chat_id data)
                    (message_id data) d tr (never_paid tr (md5_hash data)))
          as (evs & Hrun & Hp).
        rewrite Hrun. cbn. exists evs. auto. }
    destruct H1 as (evs1 & Hrun1 & Hp1). rewrite Hrun1.
    match goal with |- context [run env (process_items now items ?m) (mkWorld d false ?t)] =>
      destruct (IH m t) as (evs2 & Hrun2 & Hp2)
    end.
    rewrite Hrun2. exists (evs1 ++ evs2). rewrite app_assoc. split.
    + cbn [filter map]. destruct (unexpired now (bill, data)); cbn [negb map].
      * reflexivity.
      * now rewrite <- app_assoc.
    + intros b. now rewrite count_app, Hp1, Hp2.
Qed.

End QuietPass.

(** X12: a pass in which no payment is reported "PAID" (the answer is another
    status or an error) and Telegram accepts the expiry messages: every
    record that is not expired is still in the dictionary, unchanged, when
    the pass ends; every expired record is gone; no success message is
    sent. *)
Theorem polling_pass_keeps_unpaid env (w : World) :
  transaction_lock w = false ->
  NoDup (dict_keys (active_transactions w)) ->
  (forall tr chat b, external env tr (send_message chat (Expired b)) = Ok tt) ->
  (forall tr md5, external env tr (check_payment md5) <> Ok "PAID") ->
  outcome_of env cleanup_pass w = Returned tt /\
  (forall bill data,
     In (bill, data) (active_transactions w) ->
     (if unexpired (clock env (trace w)) (bill, data)
      then dict_get bill (active_transactions (world_after env cleanup_pass w)) = Some data
      else dict_contains bill
             (active_transactions (world_after env cleanup_pass w)) = false)) /\
  (forall b, count (is_paid_notice b) (events_of env cleanup_pass w) = 0%nat).
Proof.
  intros Hl Hnd Hsend Hnever. destruct w as [d l tr]. simpl in Hl, Hnd. subst l.
  set (now := clock env tr).
  set (pre := [Ev time_time (Ok now); Ev lock_acquire (Ok tt);
               Ev tx_items (Ok d); Ev lock_release (Ok tt)]).
  destruct (process_items_never_paid env now Hsend Hnever d [] d (tr ++ pre))
    as (evs1 & Hrun1 & Hp1).
  simpl app in Hrun1.
  set (marked := map fst (filter (fun item => negb (unexpired now item)) d)) in *.
  destruct (remove_marked_result env marked d true
              (((tr ++ pre) ++ evs1) ++ [Ev lock_acquire (Ok tt)]) Hnd)
    as (evs2 & d2 & Hrun2 & _ & Hp2 & Hs2 & Hk2 & Ho2).
  pose proof (cleanup_pass_run env d tr marked evs1 d evs2 d2 Hrun1 Hrun2) as Hrun.
  cbv zeta in Hrun. fold now in Hrun. fold pre in Hrun.
  use_run Hrun. cbn [active_transactions trace]. split; [reflexivity|]. split.
  - intros bill data Hin. fold now. destruct (unexpired now (bill, data)) eqn:Hun.
    + rewrite Ho2; [now apply dict_get_In|].
      intros Hm. unfold marked in Hm. apply in_map_iff in Hm as [[b' data'] [Hb Hf]].
      simpl in Hb. subst b'. apply filter_In in Hf as [Hin' Hexp].
      pose proof (dict_get_In _ _ _ Hnd Hin) as E1.
      pose proof (dict_get_In _ _ _ Hnd Hin') as E2.
      rewrite E1 in E2. injection E2 as <-. rewrite Hun in Hexp. discriminate.
    + apply Hk2. unfold marked. apply in_map_iff. exists (bill, data).
      split; [reflexivity|]. apply filter_In. split; [exact Hin|]. now rewrite Hun.
  - intros b. unfold pre. rewrite !count_app, Hp1, Hp2. reflexivity.
Qed.

Lemma polling_pass_keeps_unpaid_witness :
  let env := env_status 1500 (always "UNPAID") in
  let w := world_of [("TRX1", T1); ("TRX2", T2)] in
  transaction_lock w = false /\
  dict_get "TRX2" (active_transactions (world_after env cleanup_pass w)) = Some T2 /\
  dict_contains "TRX1" (active_transactions (world_after env cleanup_pass w)) = false.
Proof.
  cbv zeta. split; [reflexivity|].
  assert (Hnd : NoDup (dict_keys (active_transactions
                                    (world_of [("TRX1", T1); ("TRX2", T2)])))).
  { simpl. constructor.
    - simpl. intros [H|[]]. discriminate H.
    - constructor; [intros [] | constructor]. }
  assert (Hnever : forall tr md5,
             external (env_status 1500 (always "UNPAID")) tr (check_payment md5)
               <> Ok "PAID") by (intros tr md5; discriminate).
  destruct (polling_pass_keeps_unpaid (env_status 1500 (always "UNPAID"))
              (world_of [("TRX1", T1); ("TRX2", T2)]) eq_refl Hnd
              (fun _ _ _ => eq_refl) Hnever) as (_ & H & _).
  split.
  - exact (H "TRX2" T2 (or_intror (or_introl eq_refl))).
  - exact (H "TRX1" T1 (or_introl eq_refl)).
Defined.

Lemma keyed_filter_once (P : string * Transaction -> bool) bill data d :
  NoDup (dict_keys d) -> In (bill, data) d ->
  List.length (filter (fun item => P item && String.eqb (fst item) bill) d)
    = if P (bill, data) then 1%nat else 0%nat.
Proof.
  induction d as [|[k v] d IH]; simpl; intros Hnd Hin; [contradiction|].
  inversion Hnd as [|? ? Hnotin Hnd']; subst.
  assert (Hrest : forall k0 v0, In (k0, v0) d -> In k0 (dict_keys d)).
  { intros k0 v0 H. unfold dict_keys. apply in_map_iff. now exists (k0, v0). }
  destruct Hin as [Heq|Hin].
  - injection Heq as -> ->. rewrite String.eqb_refl, andb_true_r.
    assert (Hnone : filter (fun item => P item && String.eqb (fst item) bill) d = []).
    { clear IH Hnd Hnd'. induction d as [|[k1 v1] d IHd]; simpl; [reflexivity|].
      destruct (String.eqb_spec k1 bill) as [->|ne].
      - exfalso. apply Hnotin. now left.
      - rewrite andb_false_r. apply IHd.
        + intros H. apply Hnotin. now right.
        + intros k0 v0 H. apply in_map_iff. now exists (k0, v0). }
    rewrite Hnone. destruct (P (bill, data)); reflexivity.
  - destruct (String.eqb_spec k bill) as [->|ne].
    + exfalso. apply Hnotin. eapply Hrest. exact Hin.
    + rewrite andb_false_r. now apply IH.
Qed.

Lemma sent_messages_app l1 l2 :
  sent_messages (l1 ++ l2) = sent_messages l1 ++ sent_messages l2.
Proof.
  induction l1 as [|e l1 IH]; simpl; [reflexivity|].
  destruct (ev_action e); simpl; now rewrite IH.
Qed.

Lemma sent_messages_quiet evs :
  count is_external_call evs = 0%nat -> sent_messages evs = [].
Proof.
  unfold count. induction evs as [|[a r] evs IH]; simpl; [reflexivity|].
  destruct a; simpl; intros H; try discriminate H; auto.
Qed.

Section AllPaid.

Variable env : Env.
Variable now : Z.

Hypothesis expiry_delivered :
  forall tr chat bill, external env tr (send_message chat (Expired bill)) = Ok tt.
Hypothesis paid : forall tr md5, external env tr (check_payment md5) = Ok "PAID".
Hypothesis delivered :
  forall tr chat b status,
    external env tr (send_message chat (PaymentCompleted b status)) = Ok tt.

Lemma check_payment_status_paid bill md5 chat message d tr :
  exists evs d',
    run env (check_payment_status bill md5 chat message) (mkWorld d false tr)
      = (Returned true, mkWorld d' false (tr ++ evs)) /\
    (forall b, count (is_paid_notice b) evs = if String.eqb bill b then 1%nat else 0%nat) /\
    (forall b, count (is_expired_notice b) evs = 0%nat) /\
    sent_messages evs = [(chat, PaymentCompleted bill "PAID")] /\
    shrunk d d'.
Proof.
  unfold check_payment_status, with_lock.
  run_with ltac:(first [rewrite paid | rewrite delivered]).
  all: do 2 eexists; (split; [reflexivity|]).
  all: repeat split; try reflexivity; auto using incl_refl, dict_del_incl, dict_del_NoDup.
  all: intros b; unfold count, is_paid_notice, ev_ok; cbn;
       destruct (String.eqb bill b); reflexivity.
Qed.

Lemma process_items_all_paid items marked d tr :
  exists marked' evs d',
    run env (process_items now items marked) (mkWorld d false tr)
      = (Returned marked', mkWorld d' false (tr ++ evs)) /\
    (forall b, count (is_paid_notice b) evs
               = List.length (filter (unexpired_as now b) items)) /\
    (forall b, count (is_expired_notice b) evs
               = List.length (filter (expired_as now b) items)) /\
    sent_messages evs = map (settling_message now) items /\
    shrunk d d' /\
    incl marked marked' /\
    (forall item, In item items -> In (fst item) marked').
Proof.
  revert marked d tr. induction items as [|[bill data] items IH]; intros marked d tr.
  - exists marked, [], d. cbn. rewrite app_nil_r.
    repeat split; auto using incl_refl; try apply shrunk_refl. intros _ [].
  - cbn [process_items]. rewrite run_bind.
    assert (H1 : exists evs1 d1,
      run env (process_item now (bill, data) marked) (mkWorld d false tr)
        = (Returned (marked ++ [bill]), mkWorld d1 false (tr ++ evs1)) /\
      (forall b, count (is_paid_notice b) evs1
                 = if unexpired_as now b (bill, data) then 1%nat else 0%nat) /\
      (forall b, count (is_expired_notice b) evs1
                 = if expired_as now b (bill, data) then 1%nat else 0%nat) /\
      sent_messages evs1 = [settling_message now (bill, data)] /\
      shrunk d d1).
    { unfold process_item, unexpired_as, expired_as, settling_message, unexpired.
      simpl fst; simpl snd.
      destruct (expiry_time data <? now)%Z; simpl negb; cbn [andb].
      - run_all.
        all: try match goal with
                 | H : external _ _ (send_message _ (Expired _)) = Err _ |- _ =>
                     rewrite expiry_delivered in H; discriminate
                 end.
        all: do 2 eexists; (split; [reflexivity|]).
        all: repeat split; try reflexivity; auto using shrunk_refl, incl_refl.
        all: intros b; unfold count, is_expired_notice, ev_ok; cbn;
             destruct (String.eqb bill b); reflexivity.
      - rewrite run_bind.
        destruct (check_payment_status_paid bill (md5_hash data) (chat_id data)
                    (message_id data) d tr) as (evs & d' & Hrun & Hp & Hx & Hm & Hs).
        rewrite Hrun. cbn. exists evs, d'. repeat split; auto; apply Hs. }
    destruct H1 as (evs1 & d1 & Hrun1 & Hp1 & Hx1 & Hsent1 & Hs1). rewrite Hrun1.
    destruct (IH (marked ++ [bill]) d1 (tr ++ evs1))
      as (m2 & evs2 & d2 & Hrun2 & Hp2 & Hx2 & Hsent2 & Hs2 & Hm2 & Ha2).
    rewrite Hrun2. exists m2, (evs1 ++ evs2), d2. rewrite app_assoc.
    split; [reflexivity|]. split; [|split; [|split; [|split; [|split]]]].
    + intros b. rewrite count_app, Hp1, Hp2. cbn [filter].
      destruct (unexpired_as now b (bill, data)); reflexivity.
    + intros b. rewrite count_app, Hx1, Hx2. cbn [filter].
      destruct (expired_as now b (bill, data)); reflexivity.
    + rewrite sent_messages_app, Hsent1, Hsent2. reflexivity.
    + eapply shrunk_trans; eassumption.
    + intros x Hx. apply Hm2, in_or_app. now left.
    + intros it [<-|Hin]; [|now apply Ha2].
      apply Hm2, in_or_app. right. now left.
Qed.

End AllPaid.

(** X13: a pass in which the payment network reports every payment "PAID" and
    Telegram accepts the messages settles everything: the dictionary is
    empty when the pass ends, and the [send_message] calls of the pass are
    exactly one per record of the snapshot, in its order, each to the chat
    stored in the record: the expiry message if the deadline was behind the
    clock read by the pass, the success message if not.  In particular one
    success or expiry message is delivered for each bill number, and the
    other kind is not. *)
Theorem polling_pass_settles_all env (w : World) :
  transaction_lock w = false ->
  NoDup (dict_keys (active_transactions w)) ->
  (forall tr chat b, external env tr (send_message chat (Expired b)) = Ok tt) ->
  (forall tr md5, external env tr (check_payment md5) = Ok "PAID") ->
  (forall tr chat b status,
     external env tr (send_message chat (PaymentCompleted b status)) = Ok tt) ->
  outcome_of env cleanup_pass w = Returned tt /\
  active_transactions (world_after env cleanup_pass w) = [] /\
  (forall bill data,
     In (bill, data) (active_transactions w) ->
     count (is_paid_notice bill) (events_of env cleanup_pass w)
       = (if unexpired (clock env (trace w)) (bill, data) then 1%nat else 0%nat) /\
     count (is_expired_notice bill) (events_of env cleanup_pass w)
       = (if unexpired (clock env (trace w)) (bill, data) then 0%nat else 1%nat)) /\
  sent_messages (events_of env cleanup_pass w)
    = map (settling_message (clock env (trace w))) (active_transactions w).
Proof.
  intros Hl Hnd Hsend Hpaid Hdeliv. destruct w as [d l tr]. simpl in Hl, Hnd. subst l.
  set (now := clock env tr).
  set (pre := [Ev time_time (Ok now); Ev lock_acquire (Ok tt);
               Ev tx_items (Ok d); Ev lock_release (Ok tt)]).
  destruct (process_items_all_paid env now Hsend Hpaid Hdeliv d [] d (tr ++ pre))
    as (marked & evs1 & d1 & Hrun1 & Hp1 & Hx1 & Hsent1 & Hs1 & _ & Ha1).
  destruct (remove_marked_spec env marked d1 true
              (((tr ++ pre) ++ evs1) ++ [Ev lock_acquire (Ok tt)]))
    as (evs2 & d2 & Hrun2 & _ & Hx2 & Hs2 & Hk2).
  destruct (remove_marked_result env marked d1 true
              (((tr ++ pre) ++ evs1) ++ [Ev lock_acquire (Ok tt)]) (proj2 Hs1 Hnd))
    as (evs2' & d2' & Hrun2' & Hquiet & Hp2 & _).
  rewrite Hrun2 in Hrun2'. injection Hrun2' as <- Hevs. apply app_inv_head in Hevs.
  subst evs2'.
  pose proof (cleanup_pass_run env d tr marked evs1 d1 evs2 d2 Hrun1 Hrun2) as Hrun.
  cbv zeta in Hrun. fold now in Hrun. fold pre in Hrun.
  use_run Hrun. cbn [active_transactions trace]. split; [reflexivity|].
  split; [|split].
  - destruct d2 as [|[k v] d2]; [reflexivity|]. exfalso.
    assert (Hin : In (k, v) d) by (apply Hs1, Hs2; now left).
    pose proof (Hk2 (proj2 Hs1 Hnd) k (Ha1 (k, v) Hin)) as Habs.
    unfold dict_contains in Habs. simpl in Habs. now rewrite String.eqb_refl in Habs.
  - intros bill data Hin. fold now. unfold pre.
    rewrite !count_app, Hp1, Hx1, Hp2, Hx2.
    unfold unexpired_as, expired_as.
    rewrite (keyed_filter_once (unexpired now) bill data d Hnd Hin).
    rewrite (keyed_filter_once (fun item => negb (unexpired now item)) bill data d Hnd Hin).
    destruct (unexpired now (bill, data)); split; reflexivity.
  - fold now. unfold pre.
    rewrite !sent_messages_app, Hsent1, (sent_messages_quiet evs2 Hquiet).
    cbn. now rewrite app_nil_r.
Qed.

Lemma polling_pass_settles_all_witness :
  let env := env_status 1500 (always "PAID") in
  let w := world_of [("TRX1", T1); ("TRX2", T2)] in
  transaction_lock w = false /\
  active_transactions (world_after env cleanup_pass w) = [].
Proof.
  cbv zeta. split; [reflexivity|].
  assert (Hnd : NoDup (dict_keys (active_transactions
                                    (world_of [("TRX1", T1); ("TRX2", T2)])))).
  { simpl. constructor.
    - simpl. intros [H|[]]. discriminate H.
    - constructor; [intros [] | constructor]. }
  exact (proj1 (proj2 (polling_pass_settles_all (env_status 1500 (always "PAID"))
                         (world_of [("TRX1", T1); ("TRX2", T2)]) eq_refl Hnd
                         (fun _ _ _ => eq_refl) (fun _ _ => eq_refl)
                         (fun _ _ _ _ => eq_refl)))).
Defined.

(** ** The confirm button on a tracked bill number *)

Lemma dict_get_contains k v d : dict_get k d = Some v -> dict_contains k d = true.
Proof. unfold dict_contains. now intros ->. Qed.

(** X14: a press for a tracked bill number, started with the lock free, once
    Telegram has accepted the answer to the callback query (the call of
    line 284, which no [try] covers), the payment network answering with a
    status other than "PAID": the payment network is asked about the
    fingerprint stored with the record, the record stays as it is, and the
    only message sent is the "not paid yet" notice, to the chat stored with
    the record. *)
Theorem press_still_unpaid env (c : CallbackQuery) (w : World) data status :
  transaction_lock w = false ->
  dict_get (callback_bill_number (call_data c)) (active_transactions w) = Some data ->
  external env (trace w) (answer_callback_query (call_id c) CheckingStatus) = Ok tt ->
  (forall tr, external env tr (check_payment (md5_hash data)) = Ok status) ->
  status <> "PAID" ->
  oracle_queries (events_of env (handle_confirm_payment c) w) = [md5_hash data] /\
  sent_messages (events_of env (handle_confirm_payment c) w)
    = [(chat_id data, StillUnpaid (callback_bill_number (call_data c)))] /\
  active_transactions (world_after env (handle_confirm_payment c) w)
    = active_transactions w /\
  transaction_lock (world_after env (handle_confirm_payment c) w) = false.
Proof.
  intros Hl Hget Hans Hq Hs. destruct w as [d l tr]. simpl in Hl, Hget, Hans. subst l.
  apply String.eqb_neq in Hs.
  unfold handle_confirm_payment.
  generalize dependent (callback_bill_number (call_data c)). intros bill Hget.
  pose proof (dict_get_contains _ _ _ Hget) as Hc.
  match goal with |- context [events_of env ?p _] => set (handler := p) end.
  assert (H : exists o evs,
    run env handler (mkWorld d false tr) = (o, mkWorld d false (tr ++ evs)) /\
    oracle_queries evs = [md5_hash data] /\
    sent_messages evs = [(chat_id data, StillUnpaid bill)]).
  { unfold handler, with_lock, check_payment_status.
    destruct (call_caption c) as [old|];
      run_with ltac:(first [rewrite Hans | rewrite Hget | rewrite Hq | rewrite Hs]).
    all: do 2 eexists; (split; [reflexivity|]); split; reflexivity. }
  destruct H as (o & evs & Hrun & H1 & H2). use_run Hrun. auto.
Qed.

Lemma press_still_unpaid_witness :
  let env := env_status 1000 (always "UNPAID") in
  let w := world_of [("TRX1", T1); ("TRX2", T2)] in
  transaction_lock w = false /\
  dict_get (callback_bill_number (call_data (press "TRX2"))) (active_transactions w)
    = Some T2 /\
  sent_messages (events_of env (handle_confirm_payment (press "TRX2")) w)
    = [(chat_id T2, StillUnpaid (callback_bill_number (call_data (press "TRX2"))))].
Proof.
  cbv zeta. split; [reflexivity|]. split; [reflexivity|].
  assert (Hne : "UNPAID" <> "PAID") by discriminate.
  exact (proj1 (proj2 (press_still_unpaid (env_status 1000 (always "UNPAID"))
                         (press "TRX2") (world_of [("TRX1", T1); ("TRX2", T2)])
                         T2 "UNPAID" eq_refl eq_refl eq_refl (fun _ => eq_refl) Hne))).
Defined.

(** X15: a press for a tracked bill number, started with the lock free, once
    Telegram has accepted the answer to the callback query (line 284), the
    payment network answering "PAID" and Telegram delivering the success
    message: the handler returns, the record is removed, the success
    message goes to the chat stored with the record, and no "not paid yet"
    notice follows. *)
Theorem press_confirms_payment env (c : CallbackQuery) (w : World) data :
  transaction_lock w = false ->
  NoDup (dict_keys (active_transactions w)) ->
  dict_get (callback_bill_number (call_data c)) (active_transactions w) = Some data ->
  external env (trace w) (answer_callback_query (call_id c) CheckingStatus) = Ok tt ->
  (forall tr, external env tr (check_payment (md5_hash data)) = Ok "PAID") ->
  (forall tr chat b status,
     external env tr (send_message chat (PaymentCompleted b status)) = Ok tt) ->
  outcome_of env (handle_confirm_payment c) w = Returned tt /\
  sent_messages (events_of env (handle_confirm_payment c) w)
    = [(chat_id data, PaymentCompleted (callback_bill_number (call_data c)) "PAID")] /\
  count (is_removal (callback_bill_number (call_data c)))
        (events_of env (handle_confirm_payment c) w) = 1%nat /\
  dict_contains (callback_bill_number (call_data c))
    (active_transactions (world_after env (handle_confirm_payment c) w)) = false /\
  transaction_lock (world_after env (handle_confirm_payment c) w) = false.
Proof.
  intros Hl Hnd Hget Hans Hq Hdeliv. destruct w as [d l tr].
  simpl in Hl, Hnd, Hget, Hans. subst l.
  unfold handle_confirm_payment.
  generalize dependent (callback_bill_number (call_data c)). intros bill Hget.
  pose proof (dict_get_contains _ _ _ Hget) as Hc.
  match goal with |- context [events_of env ?p _] => set (handler := p) end.
  assert (H : exists evs,
    run env handler (mkWorld d false tr)
      = (Returned tt, mkWorld (dict_del bill d) false (tr ++ evs)) /\
    sent_messages evs = [(chat_id data, PaymentCompleted bill "PAID")] /\
    count (is_removal bill) evs = 1%nat).
  { unfold handler, with_lock, check_payment_status.
    run_with ltac:(first [rewrite Hans | rewrite Hget | rewrite Hq | rewrite Hdeliv]).
    all: eexists; (split; [reflexivity|]).
    all: unfold count, is_removal, ev_ok; cbn; rewrite ?String.eqb_refl; cbn.
    all: split; reflexivity. }
  destruct H as (evs & Hrun & H1 & H2). use_run Hrun. cbn [active_transactions].
  repeat split; auto. now apply dict_contains_del_same.
Qed.

Lemma press_confirms_payment_witness :
  let env := env_status 1000 (always "PAID") in
  let w := world_of [("TRX1", T1); ("TRX2", T2)] in
  transaction_lock w = false /\
  dict_get (callback_bill_number (call_data (press "TRX2"))) (active_transactions w)
    = Some T2 /\
  outcome_of env (handle_confirm_payment (press "TRX2")) w = Returned tt.
Proof.
  cbv zeta. split; [reflexivity|]. split; [reflexivity|].
  assert (Hnd : NoDup (dict_keys (active_transactions
                                    (world_of [("TRX1", T1); ("TRX2", T2)])))).
  { simpl. constructor.
    - simpl. intros [H|[]]. discriminate H.
    - constructor; [intros [] | constructor]. }
  exact (proj1 (press_confirms_payment (env_status 1000 (always "PAID"))
                  (press "TRX2") (world_of [("TRX1", T1); ("TRX2", T2)]) T2
                  eq_refl Hnd eq_refl eq_refl (fun _ => eq_refl)
                  (fun _ _ _ _ => eq_refl))).
Defined.

(** X16: a press for a tracked bill number, started with the lock free, once
    Telegram has accepted the answer to the callback query (line 284), when
    the call to the payment network raises: the user gets the "check error"
    message and then, as for an unpaid bill, the "not paid yet" notice; the
    record stays as it is. *)
Theorem press_check_failed env (c : CallbackQuery) (w : World) data e :
  transaction_lock w = false ->
  dict_get (callback_bill_number (call_data c)) (active_transactions w) = Some data ->
  external env (trace w) (answer_callback_query (call_id c) CheckingStatus) = Ok tt ->
  (forall tr, external env tr (check_payment (md5_hash data)) = Err e) ->
  sent_messages (events_of env (handle_confirm_payment c) w)
    = [(chat_id data, CheckError);
       (chat_id data, StillUnpaid (callback_bill_number (call_data c)))] /\
  active_transactions (world_after env (handle_confirm_payment c) w)
    = active_transactions w /\
  transaction_lock (world_after env (handle_confirm_payment c) w) = false.
Proof.
  intros Hl Hget Hans Hq. destruct w as [d l tr]. simpl in Hl, Hget, Hans. subst l.
  unfold handle_confirm_payment.
  generalize dependent (callback_bill_number (call_data c)). intros bill Hget.
  pose proof (dict_get_contains _ _ _ Hget) as Hc.
  match goal with |- context [events_of env ?p _] => set (handler := p) end.
  assert (H : exists o evs,
    run env handler (mkWorld d false tr) = (o, mkWorld d false (tr ++ evs)) /\
    sent_messages evs = [(chat_id data, CheckError); (chat_id data, StillUnpaid bill)]).
  { unfold handler, with_lock, check_payment_status.
    destruct (call_caption c) as [old|];
      run_with ltac:(first [rewrite Hans | rewrite Hget | rewrite Hq]).
    all: do 2 eexists; (split; [reflexivity|]); reflexivity. }
  destruct H as (o & evs & Hrun & H1). use_run Hrun. auto.
Qed.

Lemma press_check_failed_witness :
  let env := env_status 1000 network_down in
  let w := world_of [("TRX1", T1); ("TRX2", T2)] in
  transaction_lock w = false /\
  dict_get (callback_bill_number (call_data (press "TRX2"))) (active_transactions w)
    = Some T2 /\
  sent_messages (events_of env (handle_confirm_payment (press "TRX2")) w)
    = [(chat_id T2, CheckError);
       (chat_id T2, StillUnpaid (callback_bill_number (call_data (press "TRX2"))))].
Proof.
  cbv zeta. split; [reflexivity|]. split; [reflexivity|].
  exact (proj1 (press_check_failed (env_status 1000 network_down)
                  (press "TRX2") (world_of [("TRX1", T1); ("TRX2", T2)])
                  T2 (ApiException 500) eq_refl eq_refl eq_refl (fun _ => eq_refl))).
Defined.

(** ** The [/pay] handler *)

(** X17: a [/pay] that cannot be served, because the Bakong client was not
    created or because the message has no amount, is answered with the
    matching text first; nothing is stored, no photo is sent, and the QR
    generator and the clock are not used. *)
Theorem pay_rejected env khqr_client message (w : World) :
  khqr_client = false \/ (List.length (text_parts message) < 2)%nat ->
  hd_error (replies (events_of env (generate_khqr_payment khqr_client message) w))
    = Some (if khqr_client then AmountMissing else ServiceNotInitialized) /\
  assignments (events_of env (generate_khqr_payment khqr_client message) w) = [] /\
  sent_photos (events_of env (generate_khqr_payment khqr_client message) w) = [] /\
  count (fun e => is_external_call e && negb (is_notifier_call e))
        (events_of env (generate_khqr_payment khqr_client message) w) = 0%nat /\
  count is_clock_read (events_of env (generate_khqr_payment khqr_client message) w) = 0%nat /\
  active_transactions (world_after env (generate_khqr_payment khqr_client message) w)
    = active_transactions w.
Proof.
  intros Hrej. destruct w as [d l tr].
  assert (H : exists o evs,
    run env (generate_khqr_payment khqr_client message) (mkWorld d l tr)
      = (o, mkWorld d l (tr ++ evs)) /\
    hd_error (replies evs)
      = Some (if khqr_client then AmountMissing else ServiceNotInitialized) /\
    assignments evs = [] /\ sent_photos evs = [] /\
    count (fun e => is_external_call e && negb (is_notifier_call e)) evs = 0%nat /\
    count is_clock_read evs = 0%nat).
  { unfold generate_khqr_payment.
    destruct khqr_client; cbn [negb].
    - destruct Hrej as [Hrej|Hrej]; [discriminate|].
      apply Nat.ltb_lt in Hrej. rewrite Hrej. run_all.
      all: do 2 eexists; (split; [reflexivity|]); repeat split; reflexivity.
    - run_all.
      all: do 2 eexists; (split; [reflexivity|]); repeat split; reflexivity. }
  destruct H as (o & evs & Hrun & H1 & H2 & H3 & H4 & H5). use_run Hrun.
  repeat split; assumption.
Qed.

Lemma pay_rejected_witness :
  let env := env_status 1500 (always "UNPAID") in
  let w := world_of [("TRX1", T1)] in
  (true = false \/ (List.length (text_parts (mkMessage 42 ["/pay"])) < 2)%nat) /\
  hd_error (replies (events_of env (generate_khqr_payment true (mkMessage 42 ["/pay"])) w))
    = Some AmountMissing.
Proof.
  cbv zeta.
  assert (H : true = false \/ (List.length (text_parts (mkMessage 42 ["/pay"])) < 2)%nat)
    by (right; simpl; lia).
  split; [exact H|].
  exact (proj1 (pay_rejected (env_status 1500 (always "UNPAID")) true
                  (mkMessage 42 ["/pay"]) (world_of [("TRX1", T1)]) H)).
Defined.

(** X18: a [/pay] whose amount is not a number ([float] raises [ValueError]) is
    answered with the "bad amount format" text; nothing is stored and no
    photo is sent. *)
Theorem pay_bad_amount env message (w : World) :
  (2 <= List.length (text_parts message))%nat ->
  external env (trace w) (float_of (nth 1 (text_parts message) "")) = Err ValueError ->
  replies (events_of env (generate_khqr_payment true message) w) = [BadAmountFormat] /\
  assignments (events_of env (generate_khqr_payment true message) w) = [] /\
  sent_photos (events_of env (generate_khqr_payment true message) w) = [] /\
  active_transactions (world_after env (generate_khqr_payment true message) w)
    = active_transactions w.
Proof.
  intros Hlen Hfloat. destruct w as [d l tr]. simpl in Hfloat.
  assert (H : exists o evs,
    run env (generate_khqr_payment true message) (mkWorld d l tr)
      = (o, mkWorld d l (tr ++ evs)) /\
    replies evs = [BadAmountFormat] /\ assignments evs = [] /\ sent_photos evs = []).
  { unfold generate_khqr_payment. cbn [negb].
    assert (Hlt : (List.length (text_parts message) <? 2)%nat = false)
      by (apply Nat.ltb_ge; exact Hlen).
    rewrite Hlt. cbn. rewrite Hfloat. run_all.
    all: do 2 eexists; (split; [reflexivity|]); repeat split; reflexivity. }
  destruct H as (o & evs & Hrun & H1 & H2 & H3). use_run Hrun.
  repeat split; assumption.
Qed.

Lemma pay_bad_amount_witness :
  let env :=
    mkEnv (fun _ => 1500%Z)
          (fun _ a =>
             match a as a0 return reply (result a0) with
             | float_of _ => Err ValueError
             | a' => calm a'
             end) in
  let message := mkMessage 42 ["/pay"; "abc"] in
  (2 <= List.length (text_parts message))%nat /\
  replies (events_of env (generate_khqr_payment true message) (world_of []))
    = [BadAmountFormat].
Proof.
  intros env message.
  assert (H : (2 <= List.length (text_parts message))%nat) by (simpl; lia).
  split; [exact H|].
  exact (proj1 (pay_bad_amount env message (world_of []) H eq_refl)).
Defined.

(** What [/pay] stores, whatever the environment answers. *)
Lemma generate_khqr_payment_stored env khqr_client message (w : World) :
  forall bill data,
    In (bill, data)
       (assignments (events_of env (generate_khqr_payment khqr_client message) w)) ->
    assignments (events_of env (generate_khqr_payment khqr_client message) w)
      = [(bill, data)] /\
    sent_photos (events_of env (generate_khqr_payment khqr_client message) w)
      = [(msg_chat_id message, ConfirmKeyboard (confirm_callback_data bill),
          message_id data)] /\
    chat_id data = msg_chat_id message /\
    transaction_lock w = false /\
    outcome_of env (generate_khqr_payment khqr_client message) w = Returned tt /\
    transaction_lock (world_after env (generate_khqr_payment khqr_client message) w) = false /\
    active_transactions (world_after env (generate_khqr_payment khqr_client message) w)
      = dict_set bill data (active_transactions w).
Proof.
  destruct w as [d l tr].
  assert (H : exists o d' l' evs,
    run env (generate_khqr_payment khqr_client message) (mkWorld d l tr)
      = (o, mkWorld d' l' (tr ++ evs)) /\
    forall bill data, In (bill, data) (assignments evs) ->
      assignments evs = [(bill, data)] /\
      sent_photos evs
        = [(msg_chat_id message, ConfirmKeyboard (confirm_callback_data bill),
            message_id data)] /\
      chat_id data = msg_chat_id message /\
      l = false /\ o = Returned tt /\ l' = false /\ d' = dict_set bill data d).
  { unfold generate_khqr_payment, store_transaction, with_lock.
    destruct khqr_client; cbn [negb].
    - destruct (List.length (text_parts message) <? 2)%nat;
        [|destruct (List.length (text_parts message) =? 3)%nat];
        destruct l; run_all.
      all: try rewrite app_nil_r.
      all: do 4 eexists; (split; [reflexivity|]).
      all: cbn; intros bill data Hin; try contradiction.
      all: destruct Hin as [Hin|[]]; injection Hin as <- <-; repeat split.
    - run_all.
      all: do 4 eexists; (split; [reflexivity|]).
      all: cbn; intros bill data []. }
  destruct H as (o & d' & l' & evs & Hrun & H).
  intros bill data. unfold outcome_of, world_after.
  rewrite (events_of_eq _ _ _ _ _ _ _ Hrun), Hrun. simpl.
  intros Hin. destruct (H bill data Hin) as (H1 & H2 & H3 & H4 & H5 & H6 & H7).
  repeat split; assumption.
Qed.

(** X19: the record a [/pay] stores belongs to the photo it has just sent: the
    photo was accepted by Telegram before anything was stored, it went to
    the chat of the request, its message id is the one stored, and the
    data of its confirm button gives back, in the button handler, the key
    under which the record is stored.  At most one record is stored, and
    it can be looked up under that key when the handler has ended. *)
Theorem pay_record_matches_button env khqr_client message (w : World) bill data :
  In (bill, data)
     (assignments (events_of env (generate_khqr_payment khqr_client message) w)) ->
  assignments (events_of env (generate_khqr_payment khqr_client message) w)
    = [(bill, data)] /\
  sent_photos (events_of env (generate_khqr_payment khqr_client message) w)
    = [(msg_chat_id message, ConfirmKeyboard (confirm_callback_data bill),
        message_id data)] /\
  chat_id data = msg_chat_id message /\
  callback_bill_number (confirm_callback_data bill) = bill /\
  dict_get bill
    (active_transactions (world_after env (generate_khqr_payment khqr_client message) w))
    = Some data.
Proof.
  intros Hin.
  destruct (generate_khqr_payment_stored env khqr_client message w bill data Hin)
    as (H1 & H2 & H3 & _ & _ & _ & H7).
  split; [exact H1|]. split; [exact H2|]. split; [exact H3|]. split.
  - unfold callback_bill_number, confirm_callback_data. apply str_from_append.
  - rewrite H7. apply dict_get_set_same.
Qed.

Lemma pay_record_matches_button_witness :
  let env := env_status 1500 (always "UNPAID") in
  let p := generate_khqr_payment true (mkMessage 42 ["/pay"; "5000"; "cake"]) in
  let data := mkTransaction "md5:khqr:TRX1500000" 1800 42 501 in
  In ("TRX1500000", data) (assignments (events_of env p (world_of []))) /\
  dict_get "TRX1500000" (active_transactions (world_after env p (world_of []))) = Some data.
Proof.
  cbv zeta.
  assert (Hin : In ("TRX1500000", mkTransaction "md5:khqr:TRX1500000" 1800 42 501)
                   (assignments
                      (events_of (env_status 1500 (always "UNPAID"))
                         (generate_khqr_payment true (mkMessage 42 ["/pay"; "5000"; "cake"]))
                         (world_of []))))
    by (left; reflexivity).
  split; [exact Hin|].
  exact (proj2 (proj2 (proj2 (proj2
           (pay_record_matches_button _ _ _ _ _ _ Hin))))).
Defined.

(** A press for a tracked bill number asks the payment network once, about
    the fingerprint stored with the record, whatever the environment does
    afterwards. *)
Lemma press_tracked_queries env (c : CallbackQuery) (w : World) data :
  transaction_lock w = false ->
  dict_get (callback_bill_number (call_data c)) (active_transactions w) = Some data ->
  external env (trace w) (answer_callback_query (call_id c) CheckingStatus) = Ok tt ->
  oracle_queries (events_of env (handle_confirm_payment c) w) = [md5_hash data].
Proof.
  intros Hl Hget Hans. destruct w as [d l tr]. simpl in Hl, Hget, Hans. subst l.
  unfold handle_confirm_payment.
  generalize dependent (callback_bill_number (call_data c)). intros bill Hget.
  pose proof (dict_get_contains _ _ _ Hget) as Hc.
  match goal with |- context [events_of env ?p _] => set (handler := p) end.
  assert (H : exists o d' evs,
    run env handler (mkWorld d false tr) = (o, mkWorld d' false (tr ++ evs)) /\
    oracle_queries evs = [md5_hash data]).
  { unfold handler, with_lock, check_payment_status.
    destruct (call_caption c) as [old|];
      run_with ltac:(first [rewrite Hans | rewrite Hget]).
    all: do 3 eexists; (split; [reflexivity|]); reflexivity. }
  destruct H as (o & d' & evs & Hrun & H1). use_run Hrun. exact H1.
Qed.

(** X20: from [/pay] to the button: when a [/pay] has stored a record, a press
    of the confirm button of the photo it sent passes the filter of the
    handler and, once Telegram has accepted the answer to the callback
    query (line 284), finds that record: the payment network is asked once,
    about the fingerprint stored in it. *)
Theorem pay_then_press env khqr_client message (w : World) bill data (c : CallbackQuery) :
  In (bill, data)
     (assignments (events_of env (generate_khqr_payment khqr_client message) w)) ->
  call_data c = confirm_callback_data bill ->
  external env
    (trace (world_after env (generate_khqr_payment khqr_client message) w))
    (answer_callback_query (call_id c) CheckingStatus) = Ok tt ->
  is_confirm_callback c = true /\
  oracle_queries
    (events_of env (handle_confirm_payment c)
       (world_after env (generate_khqr_payment khqr_client message) w))
    = [md5_hash data].
Proof.
  intros Hin Hdata Hans.
  destruct (generate_khqr_payment_stored env khqr_client message w bill data Hin)
    as (_ & _ & _ & _ & _ & Hl & Hd).
  split.
  - unfold is_confirm_callback, startswith. rewrite Hdata. apply prefix_append.
  - apply press_tracked_queries; [exact Hl | | exact Hans].
    rewrite Hdata, Hd. unfold callback_bill_number, confirm_callback_data.
    rewrite str_from_append. apply dict_get_set_same.
Qed.

Lemma pay_then_press_witness :
  let env := env_status 1500 (always "UNPAID") in
  let p := generate_khqr_payment true (mkMessage 42 ["/pay"; "5000"; "cake"]) in
  let data := mkTransaction "md5:khqr:TRX1500000" 1800 42 501 in
  In ("TRX1500000", data) (assignments (events_of env p (world_of []))) /\
  oracle_queries
    (events_of env (handle_confirm_payment (press "TRX1500000"))
       (world_after env p (world_of [])))
    = [md5_hash data].
Proof.
  cbv zeta.
  assert (Hin : In ("TRX1500000", mkTransaction "md5:khqr:TRX1500000" 1800 42 501)
                   (assignments
                      (events_of (env_status 1500 (always "UNPAID"))
                         (generate_khqr_payment true (mkMessage 42 ["/pay"; "5000"; "cake"]))
                         (world_of []))))
    by (left; reflexivity).
  split; [exact Hin|].
  exact (proj2 (pay_then_press (env_status 1500 (always "UNPAID")) true
                  (mkMessage 42 ["/pay"; "5000"; "cake"]) (world_of [])
                  "TRX1500000" _ (press "TRX1500000") Hin eq_refl eq_refl)).
Defined.

(** ** Callback data *)

Lemma prefix_split (p s : string) :
  String.prefix p s = true -> (p ++ str_from (String.length p) s)%string = s.
Proof.
  revert s. induction p as [|c p IH]; intros s H; simpl.
  - destruct s; reflexivity.
  - destruct s as [|c' s]; simpl in H; [discriminate|].
    destruct (Ascii.ascii_dec c c') as [->|ne]; [|discriminate].
    simpl. now rewrite IH.
Qed.

(** X21: for every callback the handler accepts (its data starts with the
    confirm prefix), putting the prefix back in front of the bill number
    the handler extracts gives the callback data again: the bill number is
    all of the data after the prefix. *)
Theorem callback_data_of_bill_number (c : CallbackQuery) :
  is_confirm_callback c = true ->
  confirm_callback_data (callback_bill_number (call_data c)) = call_data c /\
  String.length (call_data c)
    = (String.length CONFIRM_CALLBACK_PREFIX
       + String.length (callback_bill_number (call_data c)))%nat.
Proof.
  unfold is_confirm_callback, startswith, confirm_callback_data, callback_bill_number.
  intros H. pose proof (prefix_split _ _ H) as E. split; [exact E|].
  rewrite <- E at 1. clear. generalize (str_from (String.length CONFIRM_CALLBACK_PREFIX)
                                                 (call_data c)).
  intros s. induction CONFIRM_CALLBACK_PREFIX as [|a p IH]; simpl; [reflexivity|].
  now rewrite IH.
Qed.

Lemma callback_data_of_bill_number_witness :
  is_confirm_callback (press "TRX1") = true /\
  confirm_callback_data (callback_bill_number (call_data (press "TRX1")))
    = call_data (press "TRX1").
Proof.
  split; [reflexivity|].
  exact (proj1 (callback_data_of_bill_number (press "TRX1") eq_refl)).
Defined.

(** ** Threads that only check *)

Lemma thread_of_never_assigns j : never_assigns (thread_of j).
Proof.
  destruct j; simpl;
    [apply check_and_cleanup_never_assigns | apply handle_confirm_payment_never_assigns].
Qed.

Lemma interleave_shrunk {A : Type} env schedule : forall w (pool : list (prog A)),
  Forall never_assigns pool ->
  shrunk (active_transactions w)
         (active_transactions (fst (interleave env schedule (w, pool)))).
Proof.
  induction schedule as [|i schedule IH]; intros w pool Hna; [apply shrunk_refl|].
  cbn [interleave].
  destruct (thread_step env i (w, pool)) as [[w' pool']|] eqn:E; [|now apply IH].
  unfold thread_step in E.
  destruct (nth_error pool i) as [[x|e|a k]|] eqn:Hi; try discriminate.
  destruct (perform env w a) as [[r w1]|] eqn:Hp; [|discriminate].
  injection E as <- <-.
  pose proof (nth_error_Forall _ _ _ _ Hna Hi) as [Ha Hk].
  eapply shrunk_trans; [eapply perform_shrunk; eassumption|].
  apply IH. apply set_nth_Forall; [exact Hna | apply Hk].
Qed.

(** X22: however polling threads and button presses are interleaved, and
    whatever the environment answers, they only remove records: every
    entry of the dictionary at any later point was there at the start,
    with the same record, and the keys stay distinct. *)
Theorem threads_only_remove env (jobs : list job) (schedule : list nat) (w : World) :
  incl (active_transactions (fst (interleave env schedule (w, map thread_of jobs))))
       (active_transactions w) /\
  (NoDup (dict_keys (active_transactions w)) ->
   NoDup (dict_keys
            (active_transactions (fst (interleave env schedule (w, map thread_of jobs)))))).
Proof.
  apply (interleave_shrunk env schedule w (map thread_of jobs)).
  apply Forall_forall. intros p Hp. apply in_map_iff in Hp as [j [<- _]].
  apply thread_of_never_assigns.
Qed.

Lemma threads_only_remove_witness :
  let w := world_of [("TRX1", T1); ("TRX2", T2)] in
  let jobs := [Poll 1; Press (press "TRX1"); Press (press "TRX2")] in
  let schedule := one_by_one 3 40 in
  NoDup (dict_keys (active_transactions w)) /\
  NoDup (dict_keys
           (active_transactions
              (fst (interleave race_env schedule (w, map thread_of jobs))))).
Proof.
  intros w jobs schedule.
  assert (Hnd : NoDup (dict_keys (active_transactions w))).
  { simpl. constructor.
    - simpl. intros [H|[]]. discriminate H.
    - constructor; [intros [] | constructor]. }
  split; [exact Hnd|].
  exact (proj2 (threads_only_remove race_env jobs schedule w) Hnd).
Defined.

(** ** No external call under the lock *)

Lemma external_action_call e : is_external_call e = external_action (ev_action e).
Proof. unfold is_external_call, is_notifier_call. destruct (ev_action e); reflexivity. Qed.

Lemma lock_disciplined_quiet {A : Type} (p : prog A) held :
  avoids external_action p -> lock_untouched p -> lock_disciplined held p.
Proof.
  induction p as [a|e|a k IH]; simpl; intros Hq Hu; auto.
  destruct Hq as [Ha Hk], Hu as [Hl Hu]. split; [auto|].
  intros r _. rewrite lock_next_other by exact Hl. apply IH; auto.
Qed.

Lemma lock_disciplined_free {A : Type} (p : prog A) :
  lock_untouched p -> lock_disciplined false p.
Proof.
  induction p as [a|e|a k IH]; simpl; intros Hu; auto.
  destruct Hu as [Hl Hu]. split; [discriminate|].
  intros r _. rewrite lock_next_other by exact Hl. apply IH, Hu.
Qed.

Lemma lock_disciplined_bind {A B : Type} (p : prog A) (f : A -> prog B) held :
  lock_disciplined held p -> lock_tracked held p ->
  (forall a, lock_disciplined false (f a)) ->
  lock_disciplined held (bind p f).
Proof.
  revert held. induction p as [a|e|a k IH]; simpl; intros held Hd Ht Hf.
  - subst held. apply Hf.
  - exact I.
  - destruct Hd as [Ha Hd], Ht as [_ Ht]. split; [exact Ha|].
    intros r Hr. apply IH; auto.
Qed.

Lemma lock_disciplined_try_catch {A : Type} (p : prog A) (h : exn -> prog A) held :
  lock_disciplined held p -> lock_tracked held p ->
  (forall e, lock_disciplined false (h e)) ->
  lock_disciplined held (try_catch p h).
Proof.
  revert held. induction p as [a|e|a k IH]; simpl; intros held Hd Ht Hh.
  - exact I.
  - subst held. apply Hh.
  - destruct Hd as [Ha Hd], Ht as [_ Ht]. split; [exact Ha|].
    intros r Hr. apply IH; auto.
Qed.

Lemma lock_disciplined_with_lock {A : Type} (body : prog A) :
  avoids external_action body -> lock_untouched body ->
  lock_disciplined false (with_lock body).
Proof.
  intros Hq Hu. unfold with_lock. simpl. split; [discriminate|].
  intros [[]|e] Hr; [|discriminate Hr]. simpl.
  induction body as [a|e|a k IH]; simpl.
  - split; [reflexivity|]. intros [[]|e] Hr'; [exact I | discriminate Hr'].
  - split; [reflexivity|]. intros [[]|e'] Hr'; [exact I | discriminate Hr'].
  - destruct Hq as [Ha Hq], Hu as [Hl Hu]. split; [auto|].
    intros r _. rewrite lock_next_other by exact Hl. apply IH; auto.
Qed.

(** A disciplined program, run alone by the thread the lock state belongs
    to, leaves a trace without external call under the lock. *)
Lemma run_lock_disciplined {A : Type} env (p : prog A) w :
  lock_disciplined (transaction_lock w) p ->
  external_under_lock (transaction_lock w) (events_of env p w) = false.
Proof.
  intros Hp.
  assert (H : exists evs, trace (snd (run env p w)) = trace w ++ evs /\
                          external_under_lock (transaction_lock w) evs = false).
  { revert w Hp. induction p as [a|e|a k IH]; intros w Hp; simpl.
    - exists []. now rewrite app_nil_r.
    - exists []. now rewrite app_nil_r.
    - destruct Hp as [Ha Hk].
      destruct (perform env w a) as [[r w']|] eqn:E; simpl.
      + pose proof (perform_lock_answer _ _ _ _ _ E) as Hans.
        pose proof (perform_lock_next _ _ _ _ _ E) as Hnext.
        specialize (Hk r Hans). rewrite <- Hnext in Hk.
        destruct (IH r w' Hk) as (evs & Hevs & Hx). exists (Ev a r :: evs).
        rewrite Hevs, (perform_trace _ _ _ _ _ E), <- app_assoc.
        split; [reflexivity|].
        rewrite Hnext in Hx. revert Hans Hx Ha. clear.
        unfold lock_answer, lock_next. cbn [external_under_lock ev_action].
        destruct a; cbn [ev_action]; intros Hans Hx Ha;
          try (rewrite external_action_call; cbn [ev_action];
               destruct (transaction_lock w);
               [rewrite (Ha eq_refl) | ]; exact Hx).
        * rewrite Hans in *. exact Hx.
        * destruct (transaction_lock w); [rewrite Hans in Hx; exact Hx|].
          destruct (ev_ok (Ev lock_release r)); [discriminate | exact Hx].
      + exists []. now rewrite app_nil_r. }
  destruct H as (evs & Hevs & Hx).
  unfold events_of, world_after. now rewrite (since_app _ _ _ Hevs).
Qed.

Ltac discipline_tac :=
  repeat match goal with
         | |- lock_disciplined false (with_lock _) =>
             apply lock_disciplined_with_lock; [avoids_tac | lock_tac]
         | |- lock_disciplined false (bind _ _) =>
             apply lock_disciplined_bind; [ | lock_tac | ]
         | |- lock_disciplined false (try_catch _ _) =>
             apply lock_disciplined_try_catch; [ | lock_tac | ]
         | |- lock_disciplined false (call _) =>
             apply lock_disciplined_free; lock_tac
         | |- lock_disciplined false (Ret _) => exact I
         | |- lock_disciplined false (Raise _) => exact I
         | |- lock_disciplined false (if ?b then _ else _) => destruct b
         | |- lock_disciplined false (match ?x with _ => _ end) => destruct x
         | |- forall _, _ => intro; cbv beta
         end.

Lemma check_payment_status_disciplined bill md5 chat message :
  lock_disciplined false (check_payment_status bill md5 chat message).
Proof. unfold check_payment_status. discipline_tac. Qed.

Lemma process_items_disciplined now items marked :
  lock_disciplined false (process_items now items marked).
Proof.
  revert marked.
  induction items as [|[bill data] items IH]; intros marked; cbn [process_items].
  - exact I.
  - apply lock_disciplined_bind; [| |intros a; apply IH].
    + unfold process_item. destruct (expiry_time data <? now)%Z.
      * discipline_tac.
      * apply lock_disciplined_bind;
          [apply check_payment_status_disciplined
          |apply check_payment_status_lock_tracked
          |intros a; exact I].
    + unfold process_item. destruct (expiry_time data <? now)%Z.
      * lock_tac.
      * apply lock_tracked_bind; [apply check_payment_status_lock_tracked|].
        intros a. reflexivity.
Qed.

Lemma remove_marked_quiet keys : avoids external_action (remove_marked keys).
Proof.
  induction keys as [|key keys IH]; cbn [remove_marked]; [exact I|].
  apply avoids_bind; [avoids_tac|]. intros present.
  apply avoids_bind; [|intros _; exact IH].
  destruct present; avoids_tac.
Qed.

Lemma cleanup_pass_disciplined : lock_disciplined false cleanup_pass.
Proof.
  unfold cleanup_pass.
  apply lock_disciplined_bind; [discipline_tac | lock_tac |]. intros now.
  apply lock_disciplined_bind; [discipline_tac | lock_tac |]. intros items.
  apply lock_disciplined_bind;
    [apply process_items_disciplined | apply process_items_lock_tracked |].
  intros marked.
  apply lock_disciplined_bind; [| |discipline_tac].
  - apply lock_disciplined_with_lock;
      [apply remove_marked_quiet | apply remove_marked_lock_untouched].
  - apply lock_tracked_with_lock, remove_marked_lock_untouched.
Qed.

Lemma check_and_cleanup_disciplined ticks :
  lock_disciplined false (check_and_cleanup_transactions ticks).
Proof.
  induction ticks as [|n IH]; cbn [check_and_cleanup_transactions]; [exact I|].
  apply lock_disciplined_bind;
    [apply cleanup_pass_disciplined | apply cleanup_pass_lock_tracked | intros _; exact IH].
Qed.

Lemma generate_khqr_payment_disciplined khqr_client message :
  lock_disciplined false (generate_khqr_payment khqr_client message).
Proof. unfold generate_khqr_payment, store_transaction. discipline_tac. Qed.

(** X23: started with the lock free, the status check, the polling thread (for
    any number of passes) and the [/pay] handler hold the lock only around
    dictionary operations: none of them calls the payment network or
    Telegram between an acquire and the release, whatever the environment
    answers. *)
Theorem lock_held_only_for_dictionary env (w : World) :
  transaction_lock w = false ->
  (forall bill md5 chat message,
     external_under_lock false
       (events_of env (check_payment_status bill md5 chat message) w) = false) /\
  (forall ticks,
     external_under_lock false
       (events_of env (check_and_cleanup_transactions ticks) w) = false) /\
  (forall khqr_client message,
     external_under_lock false
       (events_of env (generate_khqr_payment khqr_client message) w) = false).
Proof.
  intros Hl.
  assert (H : forall (p : prog bool), lock_disciplined false p ->
                external_under_lock false (events_of env p w) = false).
  { intros p Hp. pose proof (run_lock_disciplined env p w) as H.
    rewrite Hl in H. now apply H. }
  assert (H' : forall (p : prog unit), lock_disciplined false p ->
                 external_under_lock false (events_of env p w) = false).
  { intros p Hp. pose proof (run_lock_disciplined env p w) as H0.
    rewrite Hl in H0. now apply H0. }
  repeat split; intros.
  - apply H, check_payment_status_disciplined.
  - apply H', check_and_cleanup_disciplined.
  - apply H', generate_khqr_payment_disciplined.
Qed.

Lemma lock_held_only_for_dictionary_witness :
  let env := env_status 1500 (always "PAID") in
  let w := world_of [("TRX1", T1); ("TRX2", T2)] in
  transaction_lock w = false /\
  external_under_lock false (events_of env (check_and_cleanup_transactions 2) w) = false.
Proof.
  cbv zeta. split; [reflexivity|].
  exact (proj1 (proj2 (lock_held_only_for_dictionary (env_status 1500 (always "PAID"))
                         (world_of [("TRX1", T1); ("TRX2", T2)]) eq_refl)) 2%nat).
Defined.

Lemma pay_never_removes_witness :
  let env := env_status 1500 (always "UNPAID") in
  let w := world_of [("TRX1", T1)] in
  let p := generate_khqr_payment true (mkMessage 42 ["/pay"; "5000"]) in
  dict_contains "TRX1" (active_transactions w) = true /\
  dict_contains "TRX1" (active_transactions (world_after env p w)) = true.
Proof.
  cbv zeta. split; [reflexivity|].
  exact (proj2 (proj2 (pay_never_removes (env_status 1500 (always "UNPAID")) true
                         (mkMessage 42 ["/pay"; "5000"]) (world_of [("TRX1", T1)])))
               "TRX1" eq_refl).
Defined.

(** ** The answer to the callback query *)

(** X26: the answer to the callback query (line 284) is outside every [try]:
    when Telegram refuses it, the exception leaves the handler of the
    confirm button at once.  Nothing else is called: the lock is not
    taken, the payment network is not asked, no message is sent and the
    dictionary is as it was. *)
Theorem press_answer_refused env (c : CallbackQuery) (w : World) e :
  external env (trace w) (answer_callback_query (call_id c) CheckingStatus) = Err e ->
  outcome_of env (handle_confirm_payment c) w = Raised e /\
  map ev_action (events_of env (handle_confirm_payment c) w)
    = [answer_callback_query (call_id c) CheckingStatus] /\
  oracle_queries (events_of env (handle_confirm_payment c) w) = [] /\
  sent_messages (events_of env (handle_confirm_payment c) w) = [] /\
  active_transactions (world_after env (handle_confirm_payment c) w)
    = active_transactions w /\
  transaction_lock (world_after env (handle_confirm_payment c) w)
    = transaction_lock w.
Proof.
  intros Hans. destruct w as [d l tr]. simpl in Hans.
  assert (Hrun : run env (handle_confirm_payment c) (mkWorld d l tr)
            = (Raised e,
               mkWorld d l
                 (tr ++ [Ev (answer_callback_query (call_id c) CheckingStatus) (Err e)]))).
  { unfold handle_confirm_payment. cbn. unfold perform, answer. cbn.
    rewrite Hans. reflexivity. }
  use_run Hrun. repeat split.
Qed.

Lemma press_answer_refused_witness :
  let env := env_callback_refused 1000 (always "PAID") in
  let w := world_of [("TRX1", T1)] in
  outcome_of env (handle_confirm_payment (press "TRX1")) w = Raised (ApiException 400) /\
  active_transactions (world_after env (handle_confirm_payment (press "TRX1")) w)
    = active_transactions w.
Proof.
  cbv zeta.
  destruct (press_answer_refused (env_callback_refused 1000 (always "PAID"))
              (press "TRX1") (world_of [("TRX1", T1)]) (ApiException 400) eq_refl)
    as (H1 & _ & _ & _ & H5 & _).
  split; [exact H1 | exact H5].
Defined.
